(** * OTA payload extractor: a shallow embedding of [payload_core.py]

    The development follows the Python module top-down: byte utilities,
    the BSDF2 patch reader, the operation engine [data_for_op], the
    partition driver [dump_part] and the run controller
    [run_payload_dumper].  Python exceptions are values of [exn]; code
    that reads and writes file objects is written in a state-and-error
    monad over the file handles it touches. *)

From Stdlib Require Import ZArith NArith Floats Lia.
From Stdlib Require Import Strings.Byte.
From stdpp Require Import gmap strings list pretty.

Local Open Scope string_scope.

(** ** Bytes *)

Abbreviation bytes := (list byte).

#[global] Instance byte_eq_dec : EqDecision byte.
Proof.
  intros x y. destruct (Byte.eqb x y) eqn:E.
  - left. by apply Byte.byte_dec_bl.
  - right. intros ->. rewrite Byte.byte_dec_lb in E; congruence.
Defined.

(** [bytes(s)] for an ASCII literal [s]. *)
Definition b (s : string) : bytes := String.list_byte_of_string s.

(** ** Exceptions and results

    Every [raise] of the module raises [ValueError]; the other classes are
    the ones the interpreter and the libraries raise on the module's
    behalf.  [str_exn] is Python's [str(e)]. *)

Inductive exn :=
| ValueError (msg : string)
| TypeError (msg : string)
| IndexError (msg : string)
| StructError (msg : string)
| AttributeError (msg : string)
| LibraryError (cls msg : string).

Definition str_exn (e : exn) : string :=
  match e with
  | ValueError m | TypeError m | IndexError m | StructError m => m
  | AttributeError m => m
  | LibraryError _ m => m
  end.

Inductive result (A : Type) :=
| Ok (a : A)
| Raise (e : exn).
Arguments Ok {A} a.
Arguments Raise {A} e.

Definition is_Ok {A} (r : result A) : bool :=
  match r with Ok _ => true | Raise _ => false end.

(** ** A state-and-error monad

    [M S A] is a computation over a store [S] that returns an [A] or
    raises.  A raised exception keeps the store as it was at the [raise]:
    what was written before stays written. *)

Definition M (S A : Type) : Type := S → result A * S.

#[global] Instance M_ret {S} : MRet (M S) := λ A a s, (Ok a, s).

#[global] Instance M_bind {S} : MBind (M S) := λ A B k m s,
  match m s with
  | (Ok a, s') => k a s'
  | (Raise e, s') => (Raise e, s')
  end.

Definition raise {S A} (e : exn) : M S A := λ s, (Raise e, s).

Definition gets {S A} (f : S → A) : M S A := λ s, (Ok (f s), s).

Definition modify {S} (f : S → S) : M S unit := λ s, (Ok tt, f s).

(** [try: body except Exception as e: handler e]. *)
Definition try_except {S A} (body : M S A) (handler : exn → M S A) : M S A :=
  λ s, match body s with
       | (Ok a, s') => (Ok a, s')
       | (Raise e, s') => handler e s'
       end.

(** [for x in l: body x]. *)
Fixpoint for_each {S X} (l : list X) (body : X → M S unit) : M S unit :=
  match l with
  | [] => mret tt
  | x :: l' => body x ;; for_each l' body
  end.

(** [not x] for an [x] that is [None] or an object. *)
Definition is_None {A} (x : option A) : bool :=
  match x with None => true | Some _ => false end.

(** Lifting a pure result. *)
Definition lift {S A} (r : result A) : M S A := λ s, (r, s).

(** ** File objects

    A binary file object is its contents and its stream position.  The
    three operations are those of Python's [io] layer on a seekable file
    (and of [io.BytesIO]): a read returns at most [size] bytes and fewer at
    end of file; a write past the end fills the gap with zero bytes; a
    write of no bytes changes nothing. *)

Record file := File { contents : bytes; position : N }.

Definition seek (f : file) (offset : N) : file :=
  File (contents f) offset.

Definition tell (f : file) : N := position f.

Definition read (f : file) (size : N) : bytes * file :=
  let d := take (N.to_nat size) (drop (N.to_nat (position f)) (contents f)) in
  (d, File (contents f) (position f + N.of_nat (length d))).

(** [f.read()] and [f.read(n)] with [n < 0]: everything up to the end. *)
Definition read_all (f : file) : bytes * file :=
  let d := drop (N.to_nat (position f)) (contents f) in
  (d, File (contents f) (position f + N.of_nat (length d))).

Definition read_Z (f : file) (size : Z) : bytes * file :=
  if (size <? 0)%Z then read_all f else read f (Z.to_N size).

Definition write (f : file) (d : bytes) : file :=
  match d with
  | [] => f
  | _ =>
      let p := N.to_nat (position f) in
      File (take p (contents f) ++ replicate (p - length (contents f)) x00
              ++ d ++ drop (p + length d) (contents f))
           (position f + N.of_nat (length d))
  end.

(** ** Byte utilities *)

(** Big-endian value of a byte string. *)
Definition be_value (x : bytes) : N :=
  fold_left (λ acc c, (acc * 256 + Byte.to_N c)%N) x 0%N.

(** [struct.unpack('>I', x)[0]]: [struct.error] unless [x] has 4 bytes. *)
Definition u32 (x : bytes) : result N :=
  if bool_decide (length x = 4)
  then Ok (be_value x)
  else Raise (StructError "unpack requires a buffer of 4 bytes").

(** [struct.unpack('>Q', x)[0]]. *)
Definition u64 (x : bytes) : result N :=
  if bool_decide (length x = 8)
  then Ok (be_value x)
  else Raise (StructError "unpack requires a buffer of 8 bytes").

(** ** The manifest, as the decoder exposes it

    The fields of [update_metadata_pb2] that the module reads.  An unset
    [bytes] field reads as the empty byte string, so an absent
    [data_sha256_hash] is [[]]; an unset 32-byte digest and a set one are
    told apart by the truth value of the field, as the code does. *)

Module um.
Record Extent := { start_block : N; num_blocks : N }.

Record InstallOperation := {
  type : Z;
  data_offset : N;
  data_length : N;
  data_sha256_hash : bytes;
  src_extents : list Extent;
  dst_extents : list Extent
}.

Record PartitionUpdate := {
  partition_name : string;
  operations : list InstallOperation
}.

Record DeltaArchiveManifest := {
  block_size : N;
  partitions : list PartitionUpdate
}.
End um.

(** ** Libraries

    The functions of [hashlib], [bz2], [lzma], [zstandard], [brotli],
    [bsdiff4], of the manifest decoder and of [open_payload_file]'s
    environment, taken as an interface.  The streaming decompressors
    ([BZ2Decompressor().decompress] and the like) are kept apart from the
    one-shot ones.  [core_patch] receives the diff and extra blocks as
    Python values that may be [None]. *)

Class Libraries := {
  sha256 : bytes → bytes;
  bz2_decompress : bytes → result bytes;
  brotli_decompress : bytes → result bytes;
  BZ2Decompressor_decompress : bytes → result bytes;
  LZMADecompressor_decompress : bytes → result bytes;
  ZstdDecompressor_decompress : bytes → result bytes;
  core_patch : bytes → Z → list (Z * Z * Z) → option bytes → option bytes
               → result bytes;
  ParseFromString : bytes → result um.DeltaArchiveManifest;
  open_payload_file : string → result bytes
}.

(** ** BSDF2 patch reader *)

Definition BSDF2_MAGIC : bytes := b "BSDF2".

(** [bsdiff4.format.MAGIC]. *)
Definition MAGIC : bytes := b "BSDIFF40".

(** Modelled from the spec: [bsdiff4.core.decode_int64], the library's
    decoder of an 8-byte little-endian magnitude whose sign is the high bit
    of the last byte; anything but 8 bytes is a [ValueError]. *)
Definition decode_int64 (x : bytes) : result Z :=
  if bool_decide (length x = 8) then
    let v := be_value (reverse x) in
    if (v <? 2 ^ 63)%N then Ok (Z.of_N v) else Ok (- Z.of_N (v - 2 ^ 63))%Z
  else Raise (ValueError "8 bytes expected").

(** [x[i]] for a byte string: the byte as an integer, or [IndexError]. *)
Definition byte_at (x : bytes) (i : nat) : result N :=
  match x !! i with
  | Some c => Ok (Byte.to_N c)
  | None => Raise (IndexError "index out of range")
  end.

(** [x[i:j]] for [0 ≤ i ≤ j]. *)
Definition slice (x : bytes) (i j : nat) : bytes := take (j - i) (drop i x).

(** [range(0, stop, step)]. *)
Definition range_step (stop step : nat) : list nat :=
  (λ k, k * step) <$> seq 0 ((stop + step - 1) / step).

(** Monadic map over a list in the [result] monad, left to right. *)
Fixpoint mapM_result {A B} (f : A → result B) (l : list A) : result (list B) :=
  match l with
  | [] => Ok []
  | x :: l' =>
      match f x with
      | Raise e => Raise e
      | Ok y => match mapM_result f l' with
                | Raise e => Raise e
                | Ok ys => Ok (y :: ys)
                end
      end
  end.

Definition fread (size : Z) : M file bytes :=
  λ fi, let '(d, fi') := read_Z fi size in (Ok d, fi').

Definition fread_all : M file bytes :=
  λ fi, let '(d, fi') := read_all fi in (Ok d, fi').

Section Model.
Context {libs : Libraries}.

(** An [alg] outside 0, 1, 2 falls off the end of the function: the
    result is Python's [None]. *)
Definition bsdf2_decompress (alg : N) (data : bytes) : result (option bytes) :=
  if (alg =? 0)%N then Ok (Some data)
  else if (alg =? 1)%N then
    match bz2_decompress data with Ok d => Ok (Some d) | Raise e => Raise e end
  else if (alg =? 2)%N then
    match brotli_decompress data with Ok d => Ok (Some d) | Raise e => Raise e end
  else Ok None.

(** Lines 64-73 of the reader: the three algorithm ids of a magic. *)
Definition patch_algs (magic : bytes) : result (N * N * N) :=
  if bool_decide (magic = MAGIC) then Ok (1, 1, 1)%N
  else if bool_decide (take 5 magic = BSDF2_MAGIC) then
    match byte_at magic 5 with
    | Raise e => Raise e
    | Ok alg_control =>
        match byte_at magic 6 with
        | Raise e => Raise e
        | Ok alg_diff =>
            match byte_at magic 7 with
            | Raise e => Raise e
            | Ok alg_extra => Ok (alg_control, alg_diff, alg_extra)
            end
        end
    end
  else Raise (ValueError "incorrect magic bsdiff/BSDF2 header").

(** The control block as triples; [len(None)] is a [TypeError]. *)
Definition control_tuples (bcontrol : option bytes) : result (list (Z * Z * Z)) :=
  match bcontrol with
  | None => Raise (TypeError "object of type 'NoneType' has no len()")
  | Some bc =>
      mapM_result
        (λ i, match decode_int64 (slice bc i (i + 8)) with
              | Raise e => Raise e
              | Ok x =>
                  match decode_int64 (slice bc (i + 8) (i + 16)) with
                  | Raise e => Raise e
                  | Ok y =>
                      match decode_int64 (slice bc (i + 16) (i + 24)) with
                      | Raise e => Raise e
                      | Ok z => Ok (x, y, z)
                      end
                  end
              end)
        (range_step (length bc) 24)
  end.

(** Lines 75-91: the three lengths, then the three sections. *)
Definition read_sections (algs : N * N * N)
  : M file (Z * list (Z * Z * Z) * option bytes * option bytes) :=
  let '(alg_control, alg_diff, alg_extra) := algs in
  len_control ← (fread 8 ≫= λ x, lift (decode_int64 x));
  len_diff ← (fread 8 ≫= λ x, lift (decode_int64 x));
  len_dst ← (fread 8 ≫= λ x, lift (decode_int64 x));
  bcontrol ← (fread len_control ≫= λ x, lift (bsdf2_decompress alg_control x));
  tcontrol ← lift (control_tuples bcontrol);
  bdiff ← (fread len_diff ≫= λ x, lift (bsdf2_decompress alg_diff x));
  bextra ← (fread_all ≫= λ x, lift (bsdf2_decompress alg_extra x));
  mret (len_dst, tcontrol, bdiff, bextra).

Definition bsdf2_read_patch
  : M file (Z * list (Z * Z * Z) * option bytes * option bytes) :=
  magic ← fread 8;
  algs ← lift (patch_algs magic);
  read_sections algs.

(** *** The operation engine

    The file objects one operation works on, and the lines the log hook
    has received.  [log_callback] says whether a log hook is installed;
    the hook records its argument. *)

Record handles := Handles {
  payload_file : file;
  out_file : file;
  old_file : option file;
  log : list string
}.

Definition emit (log_callback : bool) (msg : string) : M handles unit :=
  if log_callback
  then modify (λ h, Handles (payload_file h) (out_file h) (old_file h)
                            (log h ++ [msg]))
  else mret tt.

Definition payload_seek (offset : N) : M handles unit :=
  modify (λ h, Handles (seek (payload_file h) offset) (out_file h)
                       (old_file h) (log h)).

Definition payload_read (size : N) : M handles bytes :=
  λ h, let '(d, f) := read (payload_file h) size in
       (Ok d, Handles f (out_file h) (old_file h) (log h)).

Definition out_seek (offset : N) : M handles unit :=
  modify (λ h, Handles (payload_file h) (seek (out_file h) offset)
                       (old_file h) (log h)).

Definition out_write (d : bytes) : M handles unit :=
  modify (λ h, Handles (payload_file h) (write (out_file h) d)
                       (old_file h) (log h)).

Definition no_attribute (name : string) : exn :=
  AttributeError ("'NoneType' object has no attribute '" +:+ name +:+ "'").

Definition old_seek (offset : N) : M handles unit :=
  λ h, match old_file h with
       | Some f => (Ok tt, Handles (payload_file h) (out_file h)
                                   (Some (seek f offset)) (log h))
       | None => (Raise (no_attribute "seek"), h)
       end.

Definition old_read (size : N) : M handles bytes :=
  λ h, match old_file h with
       | Some f => let '(d, f') := read f size in
                   (Ok d, Handles (payload_file h) (out_file h) (Some f') (log h))
       | None => (Raise (no_attribute "read"), h)
       end.

(** [exts[0]] on a repeated field. *)
Definition first_extent (exts : list um.Extent) : M handles um.Extent :=
  match exts with
  | ext :: _ => mret ext
  | [] => raise (IndexError "list index out of range")
  end.

Section data_for_op.
Variable op : um.InstallOperation.
Variables data_offset block_size : N.
Variable log_callback : bool.

(** [out_file.seek(op.dst_extents[0].start_block * block_size);
    out_file.write(data)]. *)
Definition write_at_first_extent (data : bytes) : M handles unit :=
  ext ← first_extent (um.dst_extents op);
  out_seek (um.start_block ext * block_size);;
  out_write data.

(** The SOURCE_COPY loop, lines 209-212. *)
Definition copy_extents (exts : list um.Extent) : M handles unit :=
  for_each exts (λ ext,
    old_seek (um.start_block ext * block_size);;
    data ← old_read (um.num_blocks ext * block_size);
    out_write data).

(** The gathering loop, lines 227-230, over the local [tmp_buff]. *)
Fixpoint gather (exts : list um.Extent) (tmp_buff : file) : M handles file :=
  match exts with
  | [] => mret tmp_buff
  | ext :: exts' =>
      old_seek (um.start_block ext * block_size);;
      old_data ← old_read (um.num_blocks ext * block_size);
      gather exts' (write tmp_buff old_data)
  end.

(** The scatter loop, lines 241-246, with its block counter [n]. *)
Fixpoint scatter (exts : list um.Extent) (n : N) (tmp_buff : file)
  : M handles unit :=
  match exts with
  | [] => mret tt
  | ext :: exts' =>
      let tmp_buff := seek tmp_buff (n * block_size) in
      let n := (n + um.num_blocks ext)%N in
      let '(data, tmp_buff) := read tmp_buff (um.num_blocks ext * block_size) in
      out_seek (um.start_block ext * block_size);;
      out_write data;;
      scatter exts' n tmp_buff
  end.

(** The ZERO loop, lines 253-255. *)
Definition zero_extents (exts : list um.Extent) : M handles unit :=
  for_each exts (λ ext,
    out_seek (um.start_block ext * block_size);;
    out_write (replicate (N.to_nat (um.num_blocks ext * block_size)) x00)).

Definition hash_mismatch_msg : string := "Operation data hash mismatch!".

(** Lines 147-156. *)
Definition verify (raw_data : bytes) : M handles unit :=
  if bool_decide (um.data_sha256_hash op ≠ []) then
    let calculated_hash := sha256 raw_data in
    if bool_decide (calculated_hash ≠ um.data_sha256_hash op) then
      emit log_callback hash_mismatch_msg;;
      raise (ValueError hash_mismatch_msg)
    else emit log_callback "  [OP] SHA256 hash OK"
  else mret tt.

Definition requires_old_msg (name : string) : string :=
  "[OP] " +:+ name +:+ " requires old_file!".

Definition unsupported_msg : string :=
  "[OP] Unsupported operation type: " +:+ pretty (um.type op).

(** Lines 159-262, the body of the [try]. *)
Definition dispatch (raw_data : bytes) : M handles unit :=
  let ty := um.type op in
  if (ty =? 0)%Z then
    emit log_callback ("  [OP] REPLACE: Writing raw data: "
                       +:+ pretty (length raw_data) +:+ " bytes");;
    write_at_first_extent raw_data
  else if (ty =? 1)%Z then
    emit log_callback ("  [OP] REPLACE_BZ: Decompressing with BZ2: input "
                       +:+ pretty (length raw_data) +:+ " bytes");;
    data ← lift (BZ2Decompressor_decompress raw_data);
    emit log_callback ("  [OP] BZ2 decompressed size: "
                       +:+ pretty (length data) +:+ " bytes");;
    write_at_first_extent data
  else if (ty =? 3)%Z || (ty =? 8)%Z then
    emit log_callback ("  [OP] REPLACE_XZ: Decompressing with XZ: input "
                       +:+ pretty (length raw_data) +:+ " bytes");;
    data ← lift (LZMADecompressor_decompress raw_data);
    emit log_callback ("  [OP] XZ decompressed size: "
                       +:+ pretty (length data) +:+ " bytes");;
    write_at_first_extent data
  else if (ty =? 4)%Z then
    emit log_callback ("  [OP] ZSTD: Decompressing with ZSTD: input "
                       +:+ pretty (length raw_data) +:+ " bytes");;
    data ← lift (ZstdDecompressor_decompress raw_data);
    emit log_callback ("  [OP] ZSTD decompressed size: "
                       +:+ pretty (length data) +:+ " bytes");;
    write_at_first_extent data
  else if (ty =? 5)%Z then
    no_old ← gets (λ h : handles, is_None (old_file h));
    (if no_old : bool then
       emit log_callback (requires_old_msg "SOURCE_COPY");;
       raise (ValueError (requires_old_msg "SOURCE_COPY"))
     else mret tt);;
    emit log_callback "[OP] SOURCE_COPY: Copying from original image";;
    ext ← first_extent (um.dst_extents op);
    out_seek (um.start_block ext * block_size);;
    copy_extents (um.src_extents op)
  else if (ty =? 6)%Z || (ty =? 10)%Z then
    no_old ← gets (λ h : handles, is_None (old_file h));
    (if no_old : bool then
       emit log_callback (requires_old_msg "BSDIFF");;
       raise (ValueError (requires_old_msg "BSDIFF"))
     else mret tt);;
    emit log_callback "[OP] BSDIFF: Applying patch";;
    ext ← first_extent (um.dst_extents op);
    out_seek (um.start_block ext * block_size);;
    tmp_buff ← gather (um.src_extents op) (File [] 0);
    let tmp_buff := seek tmp_buff 0 in
    let '(old_data, tmp_buff) := read_all tmp_buff in
    let tmp_buff := seek tmp_buff 0 in
    '(len_dst, tcontrol, bdiff, bextra) ←
      lift (fst (bsdf2_read_patch (File raw_data 0)));
    patched ← lift (core_patch old_data len_dst tcontrol bdiff bextra);
    let tmp_buff := write tmp_buff patched in
    let tmp_buff := seek tmp_buff 0 in
    scatter (um.dst_extents op) 0 tmp_buff
  else if (ty =? 2)%Z then
    emit log_callback ("  [OP] ZERO: Writing "
      +:+ pretty (foldr N.add 0%N
                    ((λ ext, um.num_blocks ext * block_size)%N
                       <$> um.dst_extents op))
      +:+ " bytes of zeros");;
    zero_extents (um.dst_extents op)
  else
    emit log_callback unsupported_msg;;
    raise (ValueError unsupported_msg).

Definition data_for_op : M handles unit :=
  payload_seek (data_offset + um.data_offset op);;
  raw_data ← payload_read (um.data_length op);
  emit log_callback ("  [OP] Type: " +:+ pretty (um.type op)
                     +:+ ", Data offset: " +:+ pretty (um.data_offset op)
                     +:+ ", Data length: " +:+ pretty (um.data_length op));;
  verify raw_data;;
  try_except (dispatch raw_data) (λ e,
    emit log_callback ("Exception during operation: " +:+ str_exn e
                       +:+ " [type: " +:+ pretty (um.type op)
                       +:+ ", data_offset: " +:+ pretty (um.data_offset op)
                       +:+ "]");;
    raise e).
End data_for_op.

(** *** The partition driver

    [world] is what a run leaves behind: the files by path, the lines the
    log hook received, the values the progress hook received, and the
    paths opened for writing, in call order.  Directories are not
    modelled: [Path(out_dir).mkdir] and the [open] for writing succeed.
    The old image is read as it is when it is opened. *)

Record world := World {
  fs : gmap string bytes;
  log_lines : list string;
  progress_calls : list Z;
  opened : list string
}.

Definition wlog (log_callback : bool) (msg : string) : M (file * world) unit :=
  if log_callback
  then modify (λ '(pf, w), (pf, World (fs w) (log_lines w ++ [msg])
                                      (progress_calls w) (opened w)))
  else mret tt.

(** [open(path, 'wb')]: the file is created empty, or truncated. *)
Definition open_wb (path : string) : M (file * world) unit :=
  modify (λ '(pf, w), (pf, World (<[path := []]> (fs w)) (log_lines w)
                                 (progress_calls w) (opened w ++ [path]))).

(** [str(x)] of a path that may be [None]. *)
Definition str_path (x : option string) : string :=
  match x with Some s => s | None => "None" end.

Definition img_path (dir part_name : string) : string :=
  dir +:+ "/" +:+ part_name +:+ ".img".

Section dump_part.
Variable part : um.PartitionUpdate.
Variables data_offset block_size : N.
Variable out_dir : string.
Variable old_dir : option string.
Variable use_diff : bool.
Variable log_callback : bool.

(** Lines 283-292: the old image, when there is one. *)
Definition open_old : M (file * world) (option file) :=
  if use_diff then
    let old_file_path := img_path (str_path old_dir) (um.partition_name part) in
    found ← gets (λ '(_, w), fs w !! old_file_path);
    match found with
    | Some c => mret (Some (File c 0))
    | None =>
        wlog log_callback ("Warning: Original image " +:+ old_file_path
                           +:+ " not found for differential OTA");;
        mret None
    end
  else mret None.

(** Lines 295-298, on the handles of this partition.  The bytes written
    reach the file whether the loop ends or an operation raises. *)
Definition run_operations (old : option file) : M (file * world) unit :=
  λ '(pf, w),
    let out_path := img_path out_dir (um.partition_name part) in
    let '(r, h) :=
      for_each (um.operations part) (λ op,
        data_for_op op data_offset block_size log_callback;;
        emit log_callback ("  Operation " +:+ pretty (um.type op)
                           +:+ " completed."))
        (Handles pf (File [] 0) old (log_lines w)) in
    (r, (payload_file h,
         World (<[out_path := contents (out_file h)]> (fs w)) (log h)
               (progress_calls w) (opened w))).

Definition dump_part : M (file * world) unit :=
  wlog log_callback ("Processing " +:+ um.partition_name part +:+ " partition");;
  open_wb (img_path out_dir (um.partition_name part));;
  old ← open_old;
  run_operations old;;
  wlog log_callback (um.partition_name part +:+ " extraction done").
End dump_part.

(** *** The run controller *)

(** [int(x)] for a float: truncation towards zero. *)
Definition int_of_float (x : float) : Z :=
  match Prim2SF x with
  | S754_finite s m e =>
      let a := match e with
               | Z0 => Zpos m
               | Zpos k => Z.shiftl (Zpos m) (Zpos k)
               | Zneg k => Z.shiftr (Zpos m) (Zpos k)
               end in
      if s then (- a)%Z else a
  | _ => 0%Z
  end.

(** [float(n)] for a count below [2^53], where the conversion is exact. *)
Definition float_of_nat (n : nat) : float :=
  PrimFloat.of_uint63 (Uint63.of_Z (Z.of_nat n)).

(** Line 368: [int((idx + 1) / total * 100)], in double precision. *)
Definition percent (total idx : nat) : Z :=
  int_of_float (float_of_nat (idx + 1) / float_of_nat total
                * float_of_nat 100)%float.

(** Lines 350-352.  [not images] holds of [None] and of the empty list. *)
Definition parts_to_dump (dam : um.DeltaArchiveManifest)
    (images : option (list string)) : list um.PartitionUpdate :=
  match images with
  | None | Some [] => um.partitions dam
  | Some images =>
      filter (λ part, um.partition_name part ∈ images) (um.partitions dam)
  end.

Definition pread (size : N) : M (file * world) bytes :=
  λ '(pf, w), let '(d, pf') := read pf size in (Ok d, (pf', w)).

Definition report (progress_callback : bool) (percent : Z)
  : M (file * world) unit :=
  if progress_callback
  then modify (λ '(pf, w), (pf, World (fs w) (log_lines w)
                                      (progress_calls w ++ [percent])
                                      (opened w)))
  else mret tt.

Section run_payload_dumper.
Variable payload_path : string.
Variable out_dir : string.
Variable diff : bool.
Variable old_dir : string.
Variable images : option (list string).
Variable log_callback : bool.
Variable progress_callback : bool.
(** The cancel hook, when installed, as the answers it gives: it is
    polled once at the head of each iteration, so its answer before the
    partition of index [idx] is its [idx]-th. *)
Variable cancel_flag : option (nat → bool).

Definition cancelled (idx : nat) : bool :=
  match cancel_flag with
  | Some poll => poll idx
  | None => false
  end.

(** Lines 355-370, from index [idx] on. *)
Fixpoint run_loop (data_offset block_size : N) (total : nat)
    (parts : list um.PartitionUpdate) (idx : nat) : M (file * world) unit :=
  match parts with
  | [] => mret tt
  | part :: parts' =>
      if cancelled idx then wlog log_callback "Extraction cancelled."
      else
        dump_part part data_offset block_size out_dir
          (if diff then Some old_dir else None) diff log_callback;;
        report progress_callback (percent total idx);;
        run_loop data_offset block_size total parts' (S idx)
  end.

Definition bad_magic_msg : string := "Invalid magic header, not an OTA payload".

Definition bad_version_msg (file_format_version : N) : string :=
  "Unsupported file format version: " +:+ pretty file_format_version.

(** Lines 316-370, the body of the [with]. *)
Definition run_body : M (file * world) unit :=
  magic ← pread 4;
  (if bool_decide (magic ≠ b "CrAU") then
     wlog log_callback bad_magic_msg;;
     raise (ValueError bad_magic_msg)
   else mret tt);;
  file_format_version ← (pread 8 ≫= λ x, lift (u64 x));
  (if bool_decide (file_format_version ≠ 2%N) then
     wlog log_callback (bad_version_msg file_format_version);;
     raise (ValueError (bad_version_msg file_format_version))
   else mret tt);;
  manifest_size ← (pread 8 ≫= λ x, lift (u64 x));
  metadata_signature_size ←
    (if (1 <? file_format_version)%N
     then pread 4 ≫= λ x, lift (u32 x)
     else mret 0%N);
  manifest ← pread manifest_size;
  metadata_signature ← pread metadata_signature_size;
  data_offset ← gets (λ '(pf, _), tell pf);
  dam ← lift (ParseFromString manifest);
  let block_size := um.block_size dam in
  let parts := parts_to_dump dam images in
  let total := length parts in
  run_loop data_offset block_size total parts 0.

Definition run_payload_dumper : M world unit :=
  λ w,
    let w := if log_callback
             then World (fs w) (log_lines w ++ ["Opening payload file..."])
                        (progress_calls w) (opened w)
             else w in
    match open_payload_file payload_path with
    | Raise e => (Raise e, w)
    | Ok payload =>
        match run_body (File payload 0, w) with
        | (Raise e, (_, w')) => (Raise e, w')
        | (Ok _, (_, w')) =>
            (Ok tt,
             if log_callback
             then World (fs w') (log_lines w' ++ ["All done."])
                        (progress_calls w') (opened w')
             else w')
        end
    end.
End run_payload_dumper.

End Model.

(** * A reference instance

    An instance of [Libraries] on which the model runs: SHA-256 and the
    bsdiff patch algorithm are implemented; the decompressors know no
    stream, the manifest decoder knows the wire encodings of two manifests
    and the opener knows four files.  No input below carries a compressed
    stream. *)

Definition byte_of_N (n : N) : byte :=
  match Byte.of_N (n mod 256) with Some c => c | None => x00 end.

(** The [len] low bytes of [n], big-endian. *)
Fixpoint be_bytes (len : nat) (n : N) : bytes :=
  match len with
  | O => []
  | S len' => (be_bytes len' (n / 256) ++ [byte_of_N n])%list
  end.

(** SHA-256 as in FIPS 180-4, on 32-bit words held in [N]. *)
Module SHA256.
Local Open Scope N_scope.

Definition w32 (x : N) : N := x mod 2 ^ 32.
Definition add32 (x y : N) : N := w32 (x + y).
Definition rotr (n x : N) : N := N.lor (N.shiftr x n) (w32 (N.shiftl x (32 - n))).
Definition Ch (x y z : N) : N :=
  N.lxor (N.land x y) (N.land (N.lxor x 0xffffffff) z).
Definition Maj (x y z : N) : N :=
  N.lxor (N.lxor (N.land x y) (N.land x z)) (N.land y z).
Definition Sigma0 (x : N) : N := N.lxor (N.lxor (rotr 2 x) (rotr 13 x)) (rotr 22 x).
Definition Sigma1 (x : N) : N := N.lxor (N.lxor (rotr 6 x) (rotr 11 x)) (rotr 25 x).
Definition sigma0 (x : N) : N := N.lxor (N.lxor (rotr 7 x) (rotr 18 x)) (N.shiftr x 3).
Definition sigma1 (x : N) : N := N.lxor (N.lxor (rotr 17 x) (rotr 19 x)) (N.shiftr x 10).

Definition is_prime (n : N) : bool :=
  (1 <? n) && forallb (λ d, negb (n mod N.of_nat d =? 0)) (seq 2 (N.to_nat n - 2)).

(** The first [count] primes, for [count] up to 64. *)
Definition primes (count : nat) : list N :=
  take count (List.filter is_prime (N.of_nat <$> seq 2 310)).

(** The integer cube root of [x], below [2 ^ bits], bit by bit from [r]. *)
Fixpoint cube_root (bits : nat) (x r : N) : N :=
  match bits with
  | O => r
  | S bits' =>
      let c := r + 2 ^ N.of_nat bits' in
      cube_root bits' x (if c * c * c <=? x then c else r)
  end.

(** The round constants: 32 bits of the fractional part of the cube root
    of each of the first 64 primes. *)
Definition K : list N :=
  (λ p, w32 (cube_root 36 (p * 2 ^ 96) 0)) <$> primes 64.

(** The initial hash value: 32 bits of the fractional part of the square
    root of each of the first 8 primes. *)
Definition H0 : list N :=
  (λ p, w32 (N.sqrt (p * 2 ^ 64))) <$> primes 8.

Definition pad (msg : bytes) : bytes :=
  let l := length msg in
  let zeros := ((64 - (l + 9) mod 64) mod 64)%nat in
  (msg ++ [x80] ++ replicate zeros x00 ++ be_bytes 8 (8 * N.of_nat l))%list.

(** [n] chunks of [size] bytes. *)
Fixpoint chunks (n size : nat) (l : bytes) : list bytes :=
  match n with
  | O => []
  | S n' => take size l :: chunks n' size (drop size l)
  end.

Definition word_at (w : list N) (i : nat) : N := nth i w 0.

Fixpoint schedule (n : nat) (w : list N) : list N :=
  match n with
  | O => w
  | S n' =>
      let t := length w in
      schedule n'
        (w ++ [add32 (add32 (sigma1 (word_at w (t - 2)%nat)) (word_at w (t - 7)%nat))
                     (add32 (sigma0 (word_at w (t - 15)%nat)) (word_at w (t - 16)%nat))])%list
  end.

Definition round (s : list N) (kw : N * N) : list N :=
  match s with
  | [a; b0; c; d; e; f; g; h] =>
      let t1 := add32 (add32 (add32 h (Sigma1 e)) (add32 (Ch e f g) kw.1)) kw.2 in
      let t2 := add32 (Sigma0 a) (Maj a b0 c) in
      [add32 t1 t2; a; b0; c; add32 d t1; e; f; g]
  | _ => s
  end.

Definition compress (h : list N) (block : bytes) : list N :=
  let w := schedule 48 (be_value <$> chunks 16 4 block) in
  zip_with add32 h (fold_left round (zip K w) h).

Definition digest (msg : bytes) : bytes :=
  let p := pad msg in
  mjoin (be_bytes 4 <$> fold_left compress (chunks (length p / 64)%nat 64 p) H0).
End SHA256.

(** The patch algorithm of bsdiff: for each control triple [(x, y, z)],
    [x] bytes of the diff block added to the old data, [y] bytes of the
    extra block copied, the position in the old data moved by [z].  An old
    byte out of range counts as zero. *)
Module bspatch.
Local Open Scope Z_scope.

Definition old_byte (old : bytes) (i : Z) : byte :=
  if (0 <=? i) && (i <? Z.of_nat (length old))
  then nth (Z.to_nat i) old x00 else x00.

Definition add_byte (c d : byte) : byte :=
  byte_of_N (Byte.to_N c + Byte.to_N d).

Definition overflow : exn := ValueError "corrupt patch (overflow)".
Definition underflow : exn := ValueError "corrupt patch (underflow)".

Fixpoint apply (controls : list (Z * Z * Z)) (old diff extra : bytes)
    (oldpos : Z) (new : bytes) (len_dst : Z) : result bytes :=
  match controls with
  | [] =>
      if (Z.of_nat (length new) =? len_dst)
         && bool_decide (diff = []) && bool_decide (extra = [])
      then Ok new else Raise underflow
  | (x, y, z) :: controls' =>
      if (x <? 0) || (len_dst <? Z.of_nat (length new) + x)
         || (Z.of_nat (length diff) <? x)
      then Raise overflow
      else
        let added := imap (λ j c, add_byte c (old_byte old (oldpos + Z.of_nat j)))
                          (take (Z.to_nat x) diff) in
        let new := (new ++ added)%list in
        if (y <? 0) || (len_dst <? Z.of_nat (length new) + y)
           || (Z.of_nat (length extra) <? y)
        then Raise overflow
        else apply controls' old (drop (Z.to_nat x) diff) (drop (Z.to_nat y) extra)
               (oldpos + x + z) (new ++ take (Z.to_nat y) extra)%list len_dst
  end.

Definition patch (old : bytes) (len_dst : Z) (controls : list (Z * Z * Z))
    (diff extra : option bytes) : result bytes :=
  match diff, extra with
  | Some d, Some e =>
      if len_dst <? 0 then Raise overflow
      else apply controls old d e 0 [] len_dst
  | _, _ => Raise (TypeError "a bytes-like object is required, not 'NoneType'")
  end.
End bspatch.

(** The 24 bytes of a frame header. *)
Definition framed_header (version manifest_size signature_size : N) : bytes :=
  (b "CrAU" ++ be_bytes 8 version ++ be_bytes 8 manifest_size
   ++ be_bytes 4 signature_size)%list.

Definition no_stream (name : string) (data : bytes) : result bytes :=
  Raise (LibraryError name "Invalid data stream").

(** A manifest of three partitions without operations, and its wire
    encoding: each partition is field 13, its name field 1; the block size
    is left to its default. *)
Definition boot : um.PartitionUpdate := um.Build_PartitionUpdate "boot" [].
Definition system : um.PartitionUpdate := um.Build_PartitionUpdate "system" [].
Definition vendor : um.PartitionUpdate := um.Build_PartitionUpdate "vendor" [].

Definition manifest3 : um.DeltaArchiveManifest :=
  um.Build_DeltaArchiveManifest 4096 [boot; system; vendor].

Definition blob3 : bytes :=
  ([x6a; x06; x0a; x04] ++ b "boot" ++ [x6a; x08; x0a; x06] ++ b "system"
   ++ [x6a; x08; x0a; x06] ++ b "vendor")%list.

Definition test_ParseFromString (blob : bytes) : result um.DeltaArchiveManifest :=
  if bool_decide (blob = []) then Ok (um.Build_DeltaArchiveManifest 4096 [])
  else if bool_decide (blob = blob3) then Ok manifest3
  else Raise (LibraryError "DecodeError" "Error parsing message").

(** A payload with [manifest3] and no data; a frame that declares a
    manifest of 100 bytes and ends there; the first bytes of a ZIP archive;
    a frame of version 1. *)
Definition payload3 : bytes :=
  (framed_header 2 (N.of_nat (length blob3)) 0 ++ blob3)%list.

Definition truncated : bytes := framed_header 2 100 0.

Definition not_ota : bytes := (b "PK" ++ [x03; x04; x14; x00; x00; x00])%list.

Definition version1 : bytes := framed_header 1 0 0.

Definition test_open_payload_file (path : string) : result bytes :=
  if bool_decide (path = "payload.bin") then Ok payload3
  else if bool_decide (path = "truncated.bin") then Ok truncated
  else if bool_decide (path = "not_ota.bin") then Ok not_ota
  else if bool_decide (path = "version1.bin") then Ok version1
  else Raise (LibraryError "FileNotFoundError" "No such file or directory").

Definition test_libs : Libraries := {|
  sha256 := SHA256.digest;
  bz2_decompress := no_stream "OSError";
  brotli_decompress := no_stream "brotli.error";
  BZ2Decompressor_decompress := no_stream "OSError";
  LZMADecompressor_decompress := no_stream "LZMAError";
  ZstdDecompressor_decompress := no_stream "ZstdError";
  core_patch := bspatch.patch;
  ParseFromString := test_ParseFromString;
  open_payload_file := test_open_payload_file
|}.

(** The digests of the empty message and of "abc", as FIPS 180-4 lists
    them. *)
Example sha256_known_answers :
  be_value (SHA256.digest [])
  = 0xe3b0c44298fc1c149afbf4c8996fb92427ae41e4649b934ca495991b7852b855%N
  ∧ be_value (SHA256.digest (b "abc"))
    = 0xba7816bf8f01cfea414140de5dae2223b00361a396177a9cb410ff61f20015ad%N.
Proof. split; vm_compute; reflexivity. Qed.

(** An empty world. *)
Definition world0 : world := World ∅ [] [] [].

(** * Properties *)

Arguments read : simpl never.
Arguments read_all : simpl never.
Arguments write : simpl never.
Arguments seek : simpl never.
Arguments pretty : simpl never.
Arguments String.append : simpl never.
Arguments emit : simpl never.
Arguments verify : simpl never.
Arguments dispatch : simpl never.

Local Open Scope list_scope.

(** ** File objects *)


Lemma contents_seek f p : contents (seek f p) = contents f.
Proof. done. Qed.


Lemma read_fst f size :
  (read f size).1 = take (N.to_nat size) (drop (N.to_nat (position f)) (contents f)).
Proof. done. Qed.



Lemma write_nonempty f d :
  d ≠ [] →
  write f d
  = File (take (N.to_nat (position f)) (contents f)
            ++ replicate (N.to_nat (position f) - length (contents f)) x00
            ++ d ++ drop (N.to_nat (position f) + length d) (contents f))
         (position f + N.of_nat (length d)).
Proof. by destruct d. Qed.

(** A write followed by a write is the write of both: [write] appends at
    the stream position. *)
Lemma write_write f d1 d2 : write (write f d1) d2 = write f (d1 ++ d2).
Proof.
  destruct (decide (d1 = [])) as [->|Hd1]; [done|].
  destruct (decide (d2 = [])) as [->|Hd2]; [by rewrite app_nil_r|].
  assert (Hd12 : d1 ++ d2 ≠ []) by (by destruct d1).
  destruct f as [c pos].
  rewrite (write_nonempty _ d1), (write_nonempty _ d2), (write_nonempty _ (d1 ++ d2))
    by done.
  cbn [contents position].
  set (p := N.to_nat pos).
  set (pre := take p c ++ replicate (p - length c) x00).
  assert (Hpre : length pre = p).
  { unfold pre. rewrite length_app, length_take, length_replicate. lia. }
  assert (Hp1 : N.to_nat (pos + N.of_nat (length d1)) = p + length d1) by lia.
  rewrite Hp1.
  replace (take p c ++ replicate (p - length c) x00 ++ d1 ++ drop (p + length d1) c)
    with ((pre ++ d1) ++ drop (p + length d1) c)
    by (unfold pre; by rewrite <- !app_assoc).
  replace (take p c ++ replicate (p - length c) x00 ++ (d1 ++ d2)
             ++ drop (p + length (d1 ++ d2)) c)
    with ((pre ++ d1) ++ d2 ++ drop (p + length (d1 ++ d2)) c)
    by (unfold pre; by rewrite <- !app_assoc).
  assert (Hpa : length (pre ++ d1) = p + length d1) by (rewrite length_app; lia).
  f_equal.
  - rewrite (take_app_length' (pre ++ d1)) by lia.
    replace (p + length d1 - length ((pre ++ d1) ++ drop (p + length d1) c)) with 0
      by (rewrite length_app; lia).
    cbn [replicate app].
    rewrite drop_app_ge by lia.
    rewrite drop_drop.
    replace (p + length d1 + (p + length d1 + length d2 - length (pre ++ d1)))
      with (p + length (d1 ++ d2)) by (rewrite length_app; lia).
    done.
  - rewrite length_app. lia.
Qed.


Lemma fold_write f (ds : list bytes) :
  fold_left write ds f = write f (concat ds).
Proof.
  revert f. induction ds as [|d ds IH]; intros f; cbn; [done|].
  by rewrite IH, write_write.
Qed.

Section Properties.
Context {libs : Libraries}.

(** The bytes step 1 fetches for [op]. *)
Definition fetched (h : handles) (data_offset : N) (op : um.InstallOperation)
  : bytes :=
  (read (seek (payload_file h) (data_offset + um.data_offset op))
        (um.data_length op)).1.

(** Whether step 2 lets [op] through: no hash, or the right one. *)
Definition hash_ok (h : handles) (data_offset : N) (op : um.InstallOperation)
  : Prop :=
  um.data_sha256_hash op = []
  ∨ sha256 (fetched h data_offset op) = um.data_sha256_hash op.

(** The handles when [dispatch] is entered: the payload has been read,
    the log has the lines of steps 1 and 2. *)
Definition at_dispatch (op : um.InstallOperation) (data_offset : N)
    (log_callback : bool) (h : handles) : handles :=
  Handles (read (seek (payload_file h) (data_offset + um.data_offset op))
                (um.data_length op)).2
          (out_file h) (old_file h)
          (if log_callback then
             log h ++
             ["  [OP] Type: " +:+ pretty (um.type op)
              +:+ ", Data offset: " +:+ pretty (um.data_offset op)
              +:+ ", Data length: " +:+ pretty (um.data_length op)]
             ++ (if bool_decide (um.data_sha256_hash op ≠ [])
                 then ["  [OP] SHA256 hash OK"] else [])
           else log h).

#[global] Instance hash_ok_dec h data_offset op :
  Decision (hash_ok h data_offset op).
Proof. unfold hash_ok. apply _. Defined.

Lemma emit_spec lc msg h :
  emit lc msg h
  = (Ok tt, Handles (payload_file h) (out_file h) (old_file h)
                    (if lc then log h ++ [msg] else log h)).
Proof. by destruct lc, h. Qed.


(** Steps 1 and 2 followed by the [try]: when the hash check lets the
    operation through, the engine is [dispatch] on the fetched bytes,
    with the handler's log line on the way out of an exception. *)
Lemma data_for_op_dispatch op data_offset block_size log_callback h :
  hash_ok h data_offset op →
  data_for_op op data_offset block_size log_callback h
  = try_except (dispatch op block_size log_callback (fetched h data_offset op))
      (λ e,
        emit log_callback ("Exception during operation: " +:+ str_exn e
                         +:+ " [type: " +:+ pretty (um.type op)
                         +:+ ", data_offset: " +:+ pretty (um.data_offset op)
                         +:+ "]");;
        raise e)
      (at_dispatch op data_offset log_callback h).
Proof.
  intros Hok.
  unfold data_for_op, hash_ok, fetched, at_dispatch in *.
  unfold mbind at 1 2 3 4, M_bind, payload_seek, payload_read, modify. cbn.
  destruct (read _ _) as [raw pf] eqn:Hread. cbn in *.
  rewrite emit_spec. unfold verify. cbn.
  destruct Hok as [Habsent | Hsame].
  - assert (Hn : ¬ (um.data_sha256_hash op ≠ [])) by (intros Hne; by apply Hne).
    rewrite (bool_decide_eq_false_2 _ Hn).
    cbn. destruct log_callback; reflexivity.
  - destruct (bool_decide (um.data_sha256_hash op ≠ [])) eqn:Hp; cbn.
    + assert (Hn : ¬ (sha256 raw ≠ um.data_sha256_hash op))
        by (intros Hne; by apply Hne).
      rewrite (bool_decide_eq_false_2 _ Hn).
      rewrite emit_spec. cbn.
      destruct log_callback; rewrite <- ?app_assoc; reflexivity.
    + destruct log_callback; rewrite ?app_nil_r; reflexivity.
Qed.





(** The bytes an extent covers in a file, up to its end. *)
Definition extent_bytes (f : file) (block_size : N) (ext : um.Extent) : bytes :=
  (read (seek f (um.start_block ext * block_size))
        (um.num_blocks ext * block_size)).1.

Lemma extent_bytes_contents f f' block_size ext :
  contents f' = contents f →
  extent_bytes f' block_size ext = extent_bytes f block_size ext.
Proof. intros E. unfold extent_bytes. by rewrite !read_fst, !contents_seek, E. Qed.





Lemma for_each_cons {S X} (x : X) (l : list X) (body : X → M S unit) s :
  for_each (x :: l) body s
  = match body x s with
    | (Ok _, s') => for_each l body s'
    | (Raise e, s') => (Raise e, s')
    end.
Proof. done. Qed.

Lemma bind_ok {S A B} (m : M S A) (k : A → M S B) s a s' :
  m s = (Ok a, s') → (m ≫= k) s = k a s'.
Proof. intros E. unfold mbind, M_bind. by rewrite E. Qed.

Lemma bind_mret {S A B} (a : A) (k : A → M S B) s : (mret a ≫= k) s = k a s.
Proof. done. Qed.

Lemma bind_raise {S A B} (m : M S A) (k : A → M S B) s e s' :
  m s = (Raise e, s') → (m ≫= k) s = (Raise e, s').
Proof. intros E. unfold mbind, M_bind. by rewrite E. Qed.










(** ** The patch reader *)





(** The stream of a BSDF2 patch with no control, diff or extra bytes and
    destination length 0, under the three algorithm ids. *)
Definition empty_patch (alg_control alg_diff alg_extra : byte) : bytes :=
  b "BSDF2" ++ [alg_control; alg_diff; alg_extra] ++ replicate 24 x00.

(** C3, on the code.  A BSDF2 header whose diff algorithm is 3 is read
    without an exception: the diff block comes back as [None].  When the
    control algorithm is 3 the reader stops on the [TypeError] of
    [len(None)], not on a [ValueError]. *)
Theorem bsdf2_read_patch_unknown_algorithm :
  (bsdf2_read_patch (File (empty_patch x00 x03 x00) 0)).1
  = Ok (0%Z, [], None, Some [])
  ∧ (bsdf2_read_patch (File (empty_patch x03 x00 x00) 0)).1
    = Raise (TypeError "object of type 'NoneType' has no len()").
Proof. split; reflexivity. Qed.

(** ** The partition driver and the run controller *)

Lemma wlog_spec lc msg pf w :
  wlog lc msg (pf, w)
  = (Ok tt, (pf, World (fs w) (if lc then log_lines w ++ [msg] else log_lines w)
                       (progress_calls w) (opened w))).
Proof. by destruct lc, w. Qed.

(** [keeps m]: whatever its outcome, [m] leaves alone the progress values
    and the list of files opened for writing. *)
Definition keeps {A} (m : M (file * world) A) : Prop :=
  ∀ s, progress_calls (m s).2.2 = progress_calls s.2
       ∧ opened (m s).2.2 = opened s.2.

Lemma keeps_bind {A B} (m : M (file * world) A) (k : A → M (file * world) B) :
  keeps m → (∀ a, keeps (k a)) → keeps (m ≫= k).
Proof.
  intros Hm Hk s. unfold mbind, M_bind.
  destruct (Hm s) as [Hp Ho]. destruct (m s) as [[a|e] s1]; cbn [fst snd] in *.
  - destruct (Hk a s1) as [Hp' Ho']. by rewrite Hp', Ho'.
  - done.
Qed.

Lemma keeps_mret {A} (a : A) : keeps (mret a).
Proof. by intros s. Qed.

Lemma keeps_wlog lc msg : keeps (wlog lc msg).
Proof. intros [pf w]. by rewrite wlog_spec. Qed.

Lemma keeps_open_old part old_dir use_diff log_callback :
  keeps (open_old part old_dir use_diff log_callback).
Proof.
  unfold open_old. destruct use_diff; [|apply keeps_mret].
  apply keeps_bind; [by intros [pf w]|]. intros [c|]; [apply keeps_mret|].
  apply keeps_bind; [apply keeps_wlog|]. intros _. apply keeps_mret.
Qed.

Lemma keeps_run_operations part data_offset block_size out_dir log_callback old :
  keeps (run_operations part data_offset block_size out_dir log_callback old).
Proof.
  intros [pf w]. unfold run_operations.
  by destruct (for_each _ _ _) as [r h].
Qed.

(** A partition leaves the progress values alone and opens one file,
    whether it completes or raises. *)
Lemma dump_part_traces part data_offset block_size out_dir old_dir use_diff
    log_callback s :
  let r := dump_part part data_offset block_size out_dir old_dir use_diff
             log_callback s in
  progress_calls r.2.2 = progress_calls s.2
  ∧ opened r.2.2 = opened s.2 ++ [img_path out_dir (um.partition_name part)].
Proof.
  destruct s as [pf w]. unfold dump_part.
  rewrite (bind_ok _ _ _ _ _ (wlog_spec _ _ _ _)).
  unfold open_wb at 1, modify.
  unfold mbind at 1, M_bind at 1.
  match goal with |- context [?m (pf, ?w1)] =>
    assert (Hk : keeps m); [|destruct (Hk (pf, w1)) as [Hp Ho]] end.
  { apply keeps_bind; [apply keeps_open_old|]. intros old.
    apply keeps_bind; [apply keeps_run_operations|]. intros _. apply keeps_wlog. }
  split; [exact Hp | exact Ho].
Qed.

Lemma report_spec progress_callback pct pf w :
  report progress_callback pct (pf, w)
  = (Ok tt, (pf, World (fs w) (log_lines w)
                       (if progress_callback
                        then progress_calls w ++ [pct] else progress_calls w)
                       (opened w))).
Proof. by destruct progress_callback, w. Qed.

Section run_loop.
Variables (out_dir : string) (diff : bool) (old_dir : string).
Variables (log_callback progress_callback : bool).
Variable cancel_flag : option (nat → bool).
Variables (data_offset block_size : N) (total : nat).

Let loop := run_loop out_dir diff old_dir log_callback progress_callback
              cancel_flag data_offset block_size total.

Let dump (part : um.PartitionUpdate) : M (file * world) unit :=
  dump_part part data_offset block_size out_dir
    (if diff then Some old_dir else None) diff log_callback.

(** The partitions the loop completes from index [idx] on: those it
    reaches before a poll of the cancel hook answers true or a partition
    raises. *)
Fixpoint completed (parts : list um.PartitionUpdate) (idx : nat)
    (s : file * world) : nat :=
  match parts with
  | [] => 0
  | part :: parts' =>
      if cancelled cancel_flag idx then 0
      else match dump part s with
           | (Raise _, _) => 0
           | (Ok _, s') =>
               S (completed parts' (S idx)
                    (report progress_callback (percent total idx) s').2)
           end
  end.

Lemma run_loop_cons part parts idx s :
  loop (part :: parts) idx s
  = if cancelled cancel_flag idx then wlog log_callback "Extraction cancelled." s
    else match dump part s with
         | (Raise e, s') => (Raise e, s')
         | (Ok _, s') =>
             loop parts (S idx) (report progress_callback (percent total idx) s').2
         end.
Proof.
  unfold loop, dump. cbn [run_loop]. destruct (cancelled _ _); [done|].
  unfold mbind, M_bind. destruct (dump_part _ _ _ _ _ _ _ _) as [[[]|e] [pf w]]; [|done].
  by rewrite report_spec.
Qed.

(** The progress hook receives one value for each completed partition,
    in order: [percent total i] after the partition of index [i]. *)
Lemma run_loop_progress parts idx s :
  progress_calls (loop parts idx s).2.2
  = progress_calls s.2
    ++ (if progress_callback
        then percent total <$> seq idx (completed parts idx s) else []).
Proof.
  revert idx s. induction parts as [|part parts IH]; intros idx s.
  - cbn. destruct progress_callback; by rewrite app_nil_r.
  - rewrite run_loop_cons. cbn [completed].
    destruct (cancelled cancel_flag idx).
    + destruct s as [pf w]. rewrite wlog_spec. cbn.
      destruct progress_callback; by rewrite app_nil_r.
    + pose proof (dump_part_traces part data_offset block_size out_dir
                    (if diff then Some old_dir else None) diff log_callback s)
        as [Hp _].
      fold (dump part) in Hp. cbn zeta in Hp.
      destruct (dump part s) as [[[]|e] [pf w]]; cbn [fst snd] in *.
      * rewrite IH, report_spec. cbn [fst snd progress_calls]. rewrite Hp.
        destruct progress_callback; [|done].
        by rewrite <- app_assoc.
      * rewrite Hp. destruct progress_callback; by rewrite app_nil_r.
Qed.

(** The files the loop opens are those of a prefix of [parts], in order;
    of all of [parts] when the loop returns without a cancellation. *)
Lemma run_loop_opened parts idx s :
  ∃ k, opened (loop parts idx s).2.2
       = opened s.2
         ++ ((λ part, img_path out_dir (um.partition_name part)) <$> take k parts)
     ∧ ((loop parts idx s).1 = Ok tt →
        (∀ i, i < length parts → cancelled cancel_flag (idx + i) = false) →
        (length parts ≤ k)%nat).
Proof.
  revert idx s. induction parts as [|part parts IH]; intros idx s.
  - exists 0. cbn. by rewrite app_nil_r.
  - rewrite run_loop_cons.
    destruct (cancelled cancel_flag idx) eqn:Hc.
    + exists 0. destruct s as [pf w]. rewrite wlog_spec. cbn.
      rewrite app_nil_r. split; [done|]. intros _ Hnc. cbn [length] in Hnc.
      specialize (Hnc 0 ltac:(lia)). rewrite Nat.add_0_r in Hnc. congruence.
    + pose proof (dump_part_traces part data_offset block_size out_dir
                    (if diff then Some old_dir else None) diff log_callback s)
        as [_ Ho].
      fold (dump part) in Ho. cbn zeta in Ho.
      destruct (dump part s) as [[[]|e] [pf w]]; cbn [fst snd] in *.
      * destruct (IH (S idx) (report progress_callback (percent total idx) (pf, w)).2)
          as (k & Hk & Hall).
        exists (S k). split.
        -- rewrite Hk, report_spec. cbn [fst snd opened]. rewrite Ho.
           by rewrite <- app_assoc.
        -- intros Hok Hnc. cbn [length] in *.
           apply le_n_S, Hall; [done|]. intros i Hi.
           specialize (Hnc (S i) ltac:(lia)).
           by rewrite Nat.add_succ_r in Hnc.
      * exists 1. split; [by rewrite Ho|]. done.
Qed.

Lemma completed_le parts idx s : (completed parts idx s ≤ length parts)%nat.
Proof.
  revert idx s. induction parts as [|part parts IH]; intros idx s; [done|].
  cbn [completed length]. destruct (cancelled cancel_flag idx); [lia|].
  destruct (dump part s) as [[[]|e] s']; [|lia].
  specialize (IH (S idx) (report progress_callback (percent total idx) s').2). lia.
Qed.

(** A loop that returns without a cancellation completed every partition. *)
Lemma completed_all parts idx s :
  (loop parts idx s).1 = Ok tt →
  (∀ i, i < length parts → cancelled cancel_flag (idx + i) = false) →
  completed parts idx s = length parts.
Proof.
  revert idx s. induction parts as [|part parts IH]; intros idx s Hok Hnc; [done|].
  rewrite run_loop_cons in Hok. cbn [completed length] in *.
  assert (Hc : cancelled cancel_flag idx = false).
  { specialize (Hnc 0 ltac:(lia)). by rewrite Nat.add_0_r in Hnc. }
  rewrite Hc in *.
  destruct (dump part s) as [[[]|e] s']; [|done].
  f_equal. apply IH; [done|]. intros i Hi.
  specialize (Hnc (S i) ltac:(lia)). by rewrite Nat.add_succ_r in Hnc.
Qed.

End run_loop.

(** *** The frame *)

Lemma pread_spec size c pos w :
  pread size (File c pos, w)
  = (Ok (take (N.to_nat size) (drop (N.to_nat pos) c)),
     (File c (pos + N.of_nat (length (take (N.to_nat size) (drop (N.to_nat pos) c)))),
      w)).
Proof. done. Qed.

Lemma pread_chunk (pre x post : bytes) size pos w :
  N.to_nat pos = length pre → N.to_nat size = length x →
  pread size (File (pre ++ x ++ post) pos, w)
  = (Ok x, (File (pre ++ x ++ post) (pos + size), w)).
Proof.
  intros Hpos Hsize. rewrite pread_spec, Hpos, Hsize.
  rewrite drop_app_length, take_app_length. do 3 f_equal. lia.
Qed.

Lemma drop_length_take {A} n (l : list A) :
  drop (length (take n l)) l = drop n l.
Proof.
  rewrite length_take. destruct (Nat.min_spec n (length l)) as [[_ ->]|[Hle ->]].
  - done.
  - by rewrite !drop_ge by lia.
Qed.

(** A payload laid out as the header fields followed by [rest]. *)
Definition framed (version manifest_size signature_size rest : bytes) : bytes :=
  b "CrAU" ++ version ++ manifest_size ++ signature_size ++ rest.

Section frame.
Variables (out_dir : string) (diff : bool) (old_dir : string).
Variable images : option (list string).
Variables (log_callback progress_callback : bool).
Variable cancel_flag : option (nat → bool).

Let body := run_body out_dir diff old_dir images log_callback progress_callback
              cancel_flag.

(** What the frame parser hands on, for a header with version 2: the
    manifest is what [read(manifest_size)] returns, the bytes that remain
    when fewer are left. *)
Lemma run_body_framed version manifest_size signature_size rest w :
  length version = 8 → length manifest_size = 8 → length signature_size = 4 →
  be_value version = 2%N →
  let payload := framed version manifest_size signature_size rest in
  let manifest := take (N.to_nat (be_value manifest_size)) rest in
  let signature := take (N.to_nat (be_value signature_size))
                        (drop (N.to_nat (be_value manifest_size)) rest) in
  let data_offset := (24 + N.of_nat (length manifest)
                         + N.of_nat (length signature))%N in
  body (File payload 0, w)
  = match ParseFromString manifest with
    | Raise e => (Raise e, (File payload data_offset, w))
    | Ok dam =>
        run_loop out_dir diff old_dir log_callback progress_callback cancel_flag
          data_offset (um.block_size dam)
          (length (parts_to_dump dam images)) (parts_to_dump dam images) 0
          (File payload data_offset, w)
    end.
Proof.
  intros Hv Hm Hs Hver payload manifest signature data_offset.
  unfold body, run_body.
  assert (Hmagic : pread 4 (File payload 0, w)
                   = (Ok (b "CrAU"), (File payload (0 + 4), w)))
    by exact (pread_chunk [] (b "CrAU") _ 4 0 w eq_refl eq_refl).
  rewrite (bind_ok _ _ _ _ _ Hmagic).
  rewrite bool_decide_eq_false_2 by (intros Hne; by apply Hne).
  rewrite bind_mret.
  assert (Hversion : (pread 8 ≫= λ x, lift (u64 x)) (File payload (0 + 4), w)
                     = (Ok 2%N, (File payload (0 + 4 + 8), w))).
  { unfold payload, framed.
    rewrite (bind_ok _ _ _ _ _
               (pread_chunk (b "CrAU") version _ 8 (0 + 4) w eq_refl
                  ltac:(by rewrite Hv))).
    unfold lift, u64. by rewrite bool_decide_eq_true_2, Hver. }
  rewrite (bind_ok _ _ _ _ _ Hversion).
  rewrite bool_decide_eq_false_2 by (intros Hne; by apply Hne).
  rewrite bind_mret.
  assert (Hsize : (pread 8 ≫= λ x, lift (u64 x)) (File payload (0 + 4 + 8), w)
                  = (Ok (be_value manifest_size),
                     (File payload (0 + 4 + 8 + 8), w))).
  { unfold payload, framed.
    replace (b "CrAU" ++ version ++ manifest_size ++ signature_size ++ rest)
      with ((b "CrAU" ++ version) ++ manifest_size ++ signature_size ++ rest)
      by (by rewrite <- app_assoc).
    rewrite (bind_ok _ _ _ _ _
               (pread_chunk (b "CrAU" ++ version) manifest_size _ 8 (0 + 4 + 8) w
                  ltac:(by rewrite length_app, Hv) ltac:(by rewrite Hm))).
    unfold lift, u64. by rewrite bool_decide_eq_true_2. }
  rewrite (bind_ok _ _ _ _ _ Hsize).
  change (1 <? 2)%N with true. cbv iota.
  assert (Hsig : (pread 4 ≫= λ x, lift (u32 x)) (File payload (0 + 4 + 8 + 8), w)
                 = (Ok (be_value signature_size),
                    (File payload (0 + 4 + 8 + 8 + 4), w))).
  { unfold payload, framed.
    replace (b "CrAU" ++ version ++ manifest_size ++ signature_size ++ rest)
      with ((b "CrAU" ++ version ++ manifest_size) ++ signature_size ++ rest)
      by (by rewrite <- !app_assoc).
    rewrite (bind_ok _ _ _ _ _
               (pread_chunk (b "CrAU" ++ version ++ manifest_size) signature_size _ 4
                  (0 + 4 + 8 + 8) w
                  ltac:(by rewrite !length_app, Hv, Hm) ltac:(by rewrite Hs))).
    unfold lift, u32. by rewrite bool_decide_eq_true_2. }
  rewrite (bind_ok _ _ _ _ _ Hsig).
  change (0 + 4 + 8 + 8 + 4)%N with 24%N.
  assert (Hrest : drop 24 payload = rest).
  { unfold payload, framed.
    replace (b "CrAU" ++ version ++ manifest_size ++ signature_size ++ rest)
      with ((b "CrAU" ++ version ++ manifest_size ++ signature_size) ++ rest)
      by (by rewrite <- !app_assoc).
    apply drop_app_length'. rewrite !length_app.
    change (length (b "CrAU")) with 4. lia. }
  rewrite (bind_ok _ _ _ _ _ (pread_spec _ _ _ _)).
  change (N.to_nat 24) with 24. rewrite Hrest. fold manifest.
  rewrite (bind_ok _ _ _ _ _ (pread_spec _ _ _ _)).
  replace (drop (N.to_nat (24 + N.of_nat (length manifest))) payload)
    with (drop (N.to_nat (be_value manifest_size)) rest).
  2:{ replace (N.to_nat (24 + N.of_nat (length manifest)))
        with (24 + length manifest) by lia.
      rewrite <- drop_drop, Hrest. unfold manifest. by rewrite drop_length_take. }
  fold signature. fold data_offset.
  rewrite (bind_ok (gets _) _ _ _ _ eq_refl).
  unfold lift, mbind, M_bind, tell. cbn [position].
  by destruct (ParseFromString manifest).
Qed.



(** The world when the payload has been opened. *)
Definition opening (w : world) : world :=
  if log_callback
  then World (fs w) (log_lines w ++ ["Opening payload file..."])
             (progress_calls w) (opened w)
  else w.

(** The world the run returns: the body's, with the last log line. *)
Definition closing (r : result unit * (file * world)) : result unit * world :=
  match r with
  | (Raise e, (_, w)) => (Raise e, w)
  | (Ok _, (_, w)) =>
      (Ok tt, if log_callback
              then World (fs w) (log_lines w ++ ["All done."])
                         (progress_calls w) (opened w)
              else w)
  end.

Lemma closing_traces r :
  (closing r).1 = r.1
  ∧ progress_calls (closing r).2 = progress_calls r.2.2
  ∧ opened (closing r).2 = opened r.2.2.
Proof.
  unfold closing. destruct r as [[[]|e] [pf w]]; [|done].
  by case log_callback.
Qed.

Lemma run_payload_dumper_body payload_path payload w :
  open_payload_file payload_path = Ok payload →
  run_payload_dumper payload_path out_dir diff old_dir images log_callback
    progress_callback cancel_flag w
  = closing (body (File payload 0, opening w)).
Proof.
  intros Hopen. unfold run_payload_dumper, closing, opening. rewrite Hopen.
  fold body. by destruct (body _) as [[[]|e] [pf w']].
Qed.

(** [decodes payload dam data_offset]: [payload] has the magic, version 2,
    and a manifest blob, as read, that the decoder turns into [dam]; the
    data region begins at [data_offset]. *)
Definition decodes (payload : bytes) (dam : um.DeltaArchiveManifest)
    (data_offset : N) : Prop :=
  ∃ version manifest_size signature_size rest,
    payload = framed version manifest_size signature_size rest
    ∧ length version = 8 ∧ length manifest_size = 8
    ∧ length signature_size = 4
    ∧ be_value version = 2%N
    ∧ ParseFromString (take (N.to_nat (be_value manifest_size)) rest) = Ok dam
    ∧ data_offset
      = (24 + N.of_nat (length (take (N.to_nat (be_value manifest_size)) rest))
         + N.of_nat (length (take (N.to_nat (be_value signature_size))
                               (drop (N.to_nat (be_value manifest_size)) rest))))%N.

Lemma run_payload_dumper_decoded payload_path payload dam data_offset w :
  open_payload_file payload_path = Ok payload →
  decodes payload dam data_offset →
  run_payload_dumper payload_path out_dir diff old_dir images log_callback
    progress_callback cancel_flag w
  = closing (run_loop out_dir diff old_dir log_callback progress_callback
               cancel_flag data_offset (um.block_size dam)
               (length (parts_to_dump dam images)) (parts_to_dump dam images) 0
               (File payload data_offset, opening w)).
Proof.
  intros Hopen (version & msize & ssize & rest & -> & Hv & Hm & Hs & Hver & Hdam & ->).
  rewrite (run_payload_dumper_body _ _ _ Hopen).
  rewrite run_body_framed by done. cbn zeta. by rewrite Hdam.
Qed.

End frame.

(** C2. A run whose payload decodes to [dam], with a progress hook.  With
    [N] the number of selected partitions, the hook receives exactly one
    value for each partition the run completes, in order, and the value
    after the partition of index [i] is [int((i + 1) / N * 100)]: the
    double-precision quotient times 100, truncated.  A run that returns
    normally without a cancellation completes all [N]. *)
Theorem progress_once_per_completed_partition payload_path out_dir diff old_dir
    images log_callback cancel_flag payload dam data_offset w :
  open_payload_file payload_path = Ok payload →
  decodes payload dam data_offset →
  let run := run_payload_dumper payload_path out_dir diff old_dir images
               log_callback true cancel_flag w in
  let parts := parts_to_dump dam images in
  let N := length parts in
  let k := completed out_dir diff old_dir log_callback true cancel_flag
             data_offset (um.block_size dam) N parts 0
             (File payload data_offset, opening log_callback w) in
  progress_calls run.2 = progress_calls w ++ (percent N <$> seq 0 k)
  ∧ (k ≤ N)%nat
  ∧ (run.1 = Ok tt →
     (∀ i, i < N → cancelled cancel_flag i = false) → k = N).
Proof.
  intros Hopen Hdec run parts N k. subst run.
  rewrite (run_payload_dumper_decoded _ _ _ _ _ _ _ _ _ _ _ _ Hopen Hdec).
  destruct (closing_traces log_callback
              (run_loop out_dir diff old_dir log_callback true cancel_flag
                 data_offset (um.block_size dam) N parts 0
                 (File payload data_offset, opening log_callback w)))
    as (Hr & Hp & _).
  fold parts N. rewrite Hr, Hp, run_loop_progress. cbn [snd].
  split; [|split].
  - f_equal. unfold opening. by destruct log_callback.
  - apply completed_le.
  - intros Hok Hnc. by apply completed_all.
Qed.


Lemma filter_ext_in {A} (P Q : A → Prop) `{!∀ x, Decision (P x)}
    `{!∀ x, Decision (Q x)} (l : list A) :
  (∀ x, x ∈ l → P x ↔ Q x) → filter P l = filter Q l.
Proof.
  induction l as [|x l IH]; intros Hext; [done|].
  rewrite !filter_cons.
  assert (Hx : P x ↔ Q x) by (apply Hext; left).
  rewrite IH by (intros y Hy; apply Hext; by right).
  destruct (decide (P x)), (decide (Q x)); tauto.
Qed.

(** C9. A non-empty allow-list selects the manifest partitions whose name
    it contains, in manifest order; a name that no manifest partition
    bears changes nothing and raises nothing.  The run over a payload that
    decodes to the manifest opens the output files of the selected
    partitions in that order, up to the partition at which it is cancelled
    or raises: all of them when it returns without a cancellation. *)
Theorem allow_list_selects_in_manifest_order dam images :
  images ≠ [] →
  let selected := parts_to_dump dam (Some images) in
  selected = filter (λ part, um.partition_name part ∈ images) (um.partitions dam)
  ∧ (∀ part, part ∈ selected
             ↔ part ∈ um.partitions dam ∧ um.partition_name part ∈ images)
  ∧ selected `sublist_of` um.partitions dam
  ∧ (∀ name, name ∉ um.partition_name <$> um.partitions dam →
       parts_to_dump dam (Some (name :: images)) = selected)
  ∧ (∀ payload_path out_dir diff old_dir log_callback progress_callback
       cancel_flag payload data_offset w,
       open_payload_file payload_path = Ok payload →
       decodes payload dam data_offset →
       let run := run_payload_dumper payload_path out_dir diff old_dir
                    (Some images) log_callback progress_callback cancel_flag w in
       ∃ k, opened run.2
            = opened w ++ ((λ part, img_path out_dir (um.partition_name part))
                             <$> take k selected)
          ∧ (run.1 = Ok tt →
             (∀ i, i < length selected → cancelled cancel_flag i = false) →
             (length selected ≤ k)%nat)).
Proof.
  intros Hne selected.
  assert (Hsel : selected = filter (λ part, um.partition_name part ∈ images)
                              (um.partitions dam)).
  { subst selected. unfold parts_to_dump. by destruct images. }
  split; [done|]. split; [|split; [|split]].
  - intros part. rewrite Hsel, list_elem_of_filter. tauto.
  - rewrite Hsel. apply sublist_filter.
  - intros name Hname. rewrite Hsel. unfold parts_to_dump.
    apply filter_ext_in. intros part Hin. rewrite elem_of_cons.
    split; [|tauto]. intros [Heq | ?]; [|done].
    exfalso. apply Hname. apply list_elem_of_fmap. by exists part.
  - intros payload_path out_dir diff old_dir log_callback progress_callback
      cancel_flag payload data_offset w Hopen Hdec run. subst run.
    rewrite (run_payload_dumper_decoded _ _ _ _ _ _ _ _ _ _ _ _ Hopen Hdec).
    fold selected.
    destruct (closing_traces log_callback
                (run_loop out_dir diff old_dir log_callback progress_callback
                   cancel_flag data_offset (um.block_size dam)
                   (length selected) selected 0
                   (File payload data_offset, opening log_callback w)))
      as (Hr & _ & Ho).
    rewrite Hr, Ho.
    destruct (run_loop_opened out_dir diff old_dir log_callback progress_callback
                cancel_flag data_offset (um.block_size dam) (length selected)
                selected 0 (File payload data_offset, opening log_callback w))
      as (k & Hk & Hall).
    exists k. split; [|exact Hall].
    rewrite Hk. cbn [snd]. f_equal. unfold opening. by destruct log_callback.
Qed.


End Properties.

(** * The properties on concrete inputs *)

(** ** The operation engine *)

Definition extent (start_block num_blocks : N) : um.Extent :=
  um.Build_Extent start_block num_blocks.












(** ** The patch reader *)


(** A BSDF2 patch without compression that turns "aaaaaaaa" into
    "aaabaaaa": one control triple (8, 0, 0), eight diff bytes, no extra
    byte.  [le_bytes] writes a length the way [decode_int64] reads it. *)
Definition le_bytes (n : N) : bytes := reverse (be_bytes 8 n).

Definition patch_aaab : bytes :=
  b "BSDF2" ++ [x00; x00; x00]
  ++ le_bytes 24 ++ le_bytes 8 ++ le_bytes 8
  ++ (le_bytes 8 ++ le_bytes 0 ++ le_bytes 0)
  ++ [x00; x00; x00; x01; x00; x00; x00; x00].



(** ** The run controller *)

Lemma payload3_decodes : decodes (libs:=test_libs) payload3 manifest3 52.
Proof.
  exists (be_bytes 8 2), (be_bytes 8 28), (be_bytes 4 0), blob3.
  repeat split; vm_compute; reflexivity.
Defined.

Lemma progress_once_per_completed_partition_witness :
  open_payload_file (Libraries:=test_libs) "payload.bin" = Ok payload3
  ∧ decodes (libs:=test_libs) payload3 manifest3 52
  ∧ progress_calls
      (run_payload_dumper (libs:=test_libs) "payload.bin" "out" false "old"
         None false true None world0).2
    = [percent 3 0; percent 3 1; percent 3 2].
Proof.
  assert (H1 : open_payload_file (Libraries:=test_libs) "payload.bin" = Ok payload3)
    by reflexivity.
  split; [exact H1|]. split; [exact payload3_decodes|].
  exact (proj1 (progress_once_per_completed_partition (libs:=test_libs)
                  "payload.bin" "out" false "old" None false None payload3
                  manifest3 52 world0 H1 payload3_decodes)).
Defined.

(** Truncation, and the double-precision product: 29/100 times 100 is
    just below 29. *)
Example percent_values :
  percent 3 0 = 33%Z ∧ percent 3 1 = 66%Z ∧ percent 3 2 = 100%Z
  ∧ percent 100 28 = 28%Z ∧ percent 1 0 = 100%Z.
Proof. repeat split; vm_compute; reflexivity. Qed.

(** The nearest integer to [(idx + 1) / total * 100], a half going up. *)
Definition round_percent (total idx : nat) : Z :=
  ((2 * (Z.of_nat idx + 1) * 100 + Z.of_nat total) / (2 * Z.of_nat total))%Z.

(** Over three partitions the hook receives 33, 66 and 100: after the
    second partition 66, where the rounded percentage is 67. *)
Lemma progress_rounding_counterexample :
  let run := run_payload_dumper (libs:=test_libs) "payload.bin" "out" false
               "old" None false true None world0 in
  run.1 = Ok tt
  ∧ progress_calls run.2 = [33; 66; 100]%Z
  ∧ round_percent 3 <$> seq 0 3 = [33; 67; 100]%Z
  ∧ progress_calls run.2 !! 1 ≠ Some (round_percent 3 1).
Proof. repeat split; vm_compute; done. Qed.



Lemma allow_list_selects_in_manifest_order_witness :
  ["vendor"; "boot"] ≠ []
  ∧ parts_to_dump manifest3 (Some ["vendor"; "boot"]) = [boot; vendor]
  ∧ parts_to_dump manifest3 (Some ["recovery"; "vendor"; "boot"]) = [boot; vendor].
Proof.
  assert (H1 : ["vendor"; "boot"] ≠ []) by discriminate.
  split; [exact H1|].
  destruct (allow_list_selects_in_manifest_order (libs:=test_libs) manifest3
              ["vendor"; "boot"] H1) as (Hsel & _ & _ & Hskip & _).
  split.
  - exact Hsel.
  - rewrite (Hskip "recovery"); [exact Hsel|].
    vm_compute. intros Hin.
    repeat (apply elem_of_cons in Hin as [Hin|Hin]; [discriminate|]).
    by apply elem_of_nil in Hin.
Defined.

(** * Further properties of the engine *)

Section Engine.
Context {libs : Libraries}.

(** The handler of the [try] adds a log line and nothing else: outcome
    and file objects are those of the body. *)
Lemma handler_transparent op log_callback (body : M handles unit) h :
  let r := try_except body (λ e,
        emit log_callback ("Exception during operation: " +:+ str_exn e
                         +:+ " [type: " +:+ pretty (um.type op)
                         +:+ ", data_offset: " +:+ pretty (um.data_offset op)
                         +:+ "]");;
        raise e) h in
  r.1 = (body h).1 ∧ out_file r.2 = out_file (body h).2
  ∧ payload_file r.2 = payload_file (body h).2
  ∧ old_file r.2 = old_file (body h).2.
Proof.
  unfold try_except. destruct (body h) as [[[]|e] h']; [done|].
  unfold mbind, M_bind. rewrite emit_spec. done.
Qed.

(** The engine past step 2, seen through the handler. *)
Lemma data_for_op_past_verify op data_offset block_size log_callback h :
  hash_ok h data_offset op →
  let r := data_for_op op data_offset block_size log_callback h in
  let d := dispatch op block_size log_callback (fetched h data_offset op)
             (at_dispatch op data_offset log_callback h) in
  r.1 = d.1 ∧ out_file r.2 = out_file d.2
  ∧ payload_file r.2 = payload_file d.2 ∧ old_file r.2 = old_file d.2.
Proof.
  intros Hok. cbn zeta. rewrite data_for_op_dispatch by done.
  apply handler_transparent.
Qed.

(** The engine stopped by step 2. *)
Lemma data_for_op_rejected op data_offset block_size log_callback h :
  ¬ hash_ok h data_offset op →
  let r := data_for_op op data_offset block_size log_callback h in
  r.1 = Raise (ValueError hash_mismatch_msg)
  ∧ out_file r.2 = out_file h
  ∧ payload_file r.2
    = (read (seek (payload_file h) (data_offset + um.data_offset op))
            (um.data_length op)).2
  ∧ old_file r.2 = old_file h.
Proof.
  intros Hbad.
  assert (Hpresent : um.data_sha256_hash op ≠ []) by (intros E; apply Hbad; by left).
  assert (Hdiff : sha256 (fetched h data_offset op) ≠ um.data_sha256_hash op)
    by (intros E; apply Hbad; by right).
  unfold data_for_op, fetched in *.
  unfold mbind, M_bind, payload_seek, payload_read, modify. cbn.
  destruct (read _ _) as [raw pf] eqn:Hread. cbn in *.
  rewrite emit_spec. unfold verify.
  rewrite !bool_decide_eq_true_2 by done.
  unfold mbind, M_bind. rewrite emit_spec. by cbn.
Qed.

Lemma write_at_first_extent_spec op block_size data pf out old lg :
  write_at_first_extent op block_size data (Handles pf out old lg)
  = match um.dst_extents op with
    | ext :: _ =>
        (Ok tt, Handles pf (write (seek out (um.start_block ext * block_size)) data)
                        old lg)
    | [] => (Raise (IndexError "list index out of range"), Handles pf out old lg)
    end.
Proof. unfold write_at_first_extent. by destruct (um.dst_extents op). Qed.

(** The decoder a REPLACE-family type code applies to the fetched bytes. *)
Definition replace_codec (ty : Z) : option (bytes → result bytes) :=
  if (ty =? 0)%Z then Some Ok
  else if (ty =? 1)%Z then Some BZ2Decompressor_decompress
  else if (ty =? 3)%Z || (ty =? 8)%Z then Some LZMADecompressor_decompress
  else if (ty =? 4)%Z then Some ZstdDecompressor_decompress
  else None.

(** What a REPLACE-family operation leaves: the decoder's exception, the
    [IndexError] of a missing first extent, or the decoded bytes written at
    the first extent. *)
Definition replace_outcome (op : um.InstallOperation) (block_size : N)
    (decoded : result bytes) (out : file) : result unit * file :=
  match decoded with
  | Raise e => (Raise e, out)
  | Ok data =>
      match um.dst_extents op with
      | ext :: _ =>
          (Ok tt, write (seek out (um.start_block ext * block_size)) data)
      | [] => (Raise (IndexError "list index out of range"), out)
      end
  end.

Lemma dispatch_replace_family op block_size log_callback raw codec h :
  replace_codec (um.type op) = Some codec →
  let d := dispatch op block_size log_callback raw h in
  (d.1, out_file d.2) = replace_outcome op block_size (codec raw) (out_file h)
  ∧ payload_file d.2 = payload_file h ∧ old_file d.2 = old_file h.
Proof.
  unfold replace_codec, dispatch, replace_outcome. destruct h as [pf out old lg].
  destruct (um.type op =? 0)%Z.
  { intros [= <-]. cbn zeta. unfold mbind, M_bind. rewrite emit_spec.
    rewrite write_at_first_extent_spec. by destruct (um.dst_extents op). }
  destruct (um.type op =? 1)%Z.
  { intros [= <-]. cbn zeta. unfold mbind, M_bind, lift. rewrite emit_spec.
    destruct (BZ2Decompressor_decompress raw) as [data|e]; [|done].
    rewrite emit_spec, write_at_first_extent_spec.
    by destruct (um.dst_extents op). }
  destruct ((um.type op =? 3)%Z || (um.type op =? 8)%Z).
  { intros [= <-]. cbn zeta. unfold mbind, M_bind, lift. rewrite emit_spec.
    destruct (LZMADecompressor_decompress raw) as [data|e]; [|done].
    rewrite emit_spec, write_at_first_extent_spec.
    by destruct (um.dst_extents op). }
  destruct (um.type op =? 4)%Z; [|done].
  intros [= <-]. cbn zeta. unfold mbind, M_bind, lift. rewrite emit_spec.
  destruct (ZstdDecompressor_decompress raw) as [data|e]; [|done].
  rewrite emit_spec, write_at_first_extent_spec.
  by destruct (um.dst_extents op).
Qed.






(** [op] with another type code. *)
Definition with_type (ty : Z) (op : um.InstallOperation) : um.InstallOperation :=
  um.Build_InstallOperation ty (um.data_offset op) (um.data_length op)
    (um.data_sha256_hash op) (um.src_extents op) (um.dst_extents op).

(** X4. Type 8 is handled as type 3: an operation gives the same outcome
    and the same three file objects under either type code. *)
Theorem replace_xz_alias op data_offset block_size log_callback h :
  let r3 := data_for_op (with_type 3 op) data_offset block_size log_callback h in
  let r8 := data_for_op (with_type 8 op) data_offset block_size log_callback h in
  r3.1 = r8.1 ∧ out_file r3.2 = out_file r8.2
  ∧ payload_file r3.2 = payload_file r8.2 ∧ old_file r3.2 = old_file r8.2.
Proof.
  intros r3 r8. subst r3 r8.
  destruct (decide (hash_ok h data_offset (with_type 3 op))) as [Hok|Hbad].
  - assert (Hok8 : hash_ok h data_offset (with_type 8 op)) by exact Hok.
    destruct (data_for_op_past_verify (with_type 3 op) data_offset block_size
                log_callback h Hok) as (-> & -> & -> & ->).
    destruct (data_for_op_past_verify (with_type 8 op) data_offset block_size
                log_callback h Hok8) as (-> & -> & -> & ->).
    change (fetched h data_offset (with_type 8 op))
      with (fetched h data_offset (with_type 3 op)).
    set (raw := fetched h data_offset (with_type 3 op)).
    destruct (dispatch_replace_family (with_type 3 op) block_size log_callback raw
                LZMADecompressor_decompress
                (at_dispatch (with_type 3 op) data_offset log_callback h) eq_refl)
      as (H3 & H3p & H3o).
    destruct (dispatch_replace_family (with_type 8 op) block_size log_callback raw
                LZMADecompressor_decompress
                (at_dispatch (with_type 8 op) data_offset log_callback h) eq_refl)
      as (H8 & H8p & H8o).
    cbn zeta in *. rewrite H3p, H8p, H3o, H8o.
    assert (Heq : replace_outcome (with_type 3 op) block_size
                    (LZMADecompressor_decompress raw)
                    (out_file (at_dispatch (with_type 3 op) data_offset log_callback h))
                  = replace_outcome (with_type 8 op) block_size
                      (LZMADecompressor_decompress raw)
                      (out_file (at_dispatch (with_type 8 op) data_offset
                                   log_callback h))) by done.
    rewrite <- H3, <- H8 in Heq. injection Heq as -> ->. done.
  - assert (Hbad8 : ¬ hash_ok h data_offset (with_type 8 op)) by exact Hbad.
    destruct (data_for_op_rejected (with_type 3 op) data_offset block_size
                log_callback h Hbad) as (-> & -> & -> & ->).
    by destruct (data_for_op_rejected (with_type 8 op) data_offset block_size
                   log_callback h Hbad8) as (-> & -> & -> & ->).
Qed.




(** *** ZERO *)







(** *** Contiguous extents *)

(** Lines 96-101: the loop, from the running block count [blocks]. *)
Fixpoint verify_contiguous_from (blocks : N) (exts : list um.Extent) : bool :=
  match exts with
  | [] => true
  | ext :: exts' =>
      if bool_decide (um.start_block ext ≠ blocks) then false
      else verify_contiguous_from (blocks + um.num_blocks ext) exts'
  end.

Definition verify_contiguous (exts : list um.Extent) : bool :=
  verify_contiguous_from 0 exts.

(** The blocks of a list of extents. *)
Definition total_blocks (exts : list um.Extent) : N :=
  foldr (λ ext acc, um.num_blocks ext + acc)%N 0%N exts.

Lemma total_blocks_app exts1 exts2 :
  total_blocks (exts1 ++ exts2) = (total_blocks exts1 + total_blocks exts2)%N.
Proof.
  induction exts1 as [|e l IH]; [done|].
  unfold total_blocks in *. cbn [app foldr]. rewrite IH. lia.
Qed.

Lemma verify_contiguous_from_spec blocks exts :
  verify_contiguous_from blocks exts = true
  ↔ ∀ i ext, exts !! i = Some ext →
             um.start_block ext = (blocks + total_blocks (take i exts))%N.
Proof.
  revert blocks. induction exts as [|e exts IH]; intros blocks.
  - split; [|done]. intros _ i ext Hl. by rewrite lookup_nil in Hl.
  - cbn [verify_contiguous_from]. case_bool_decide as Hs.
    + split; [done|]. intros Hall. exfalso. apply Hs.
      rewrite (Hall 0 e eq_refl). cbn. lia.
    + rewrite IH. split.
      * intros Hall [|i] ext Hl.
        -- injection Hl as <-. rewrite Hs. cbn. lia.
        -- cbn in Hl. rewrite (Hall i ext Hl).
           change (total_blocks (take (S i) (e :: exts)))
             with (um.num_blocks e + total_blocks (take i exts))%N. lia.
      * intros Hall i ext Hl. rewrite (Hall (S i) ext Hl).
        change (total_blocks (take (S i) (e :: exts)))
          with (um.num_blocks e + total_blocks (take i exts))%N. lia.
Qed.

(** X8. [verify_contiguous] returns true exactly when each extent starts
    at the block where the extents before it end: at the sum of their
    [num_blocks]. *)
Theorem verify_contiguous_spec exts :
  verify_contiguous exts = true
  ↔ ∀ i ext, exts !! i = Some ext →
             um.start_block ext = total_blocks (take i exts).
Proof. unfold verify_contiguous. by rewrite verify_contiguous_from_spec. Qed.






(** *** What the engine never touches *)


(** [h'] has the log of [h]. *)
Definition same_log (h h' : handles) : Prop := log h' = log h.

Section preserves.
Variable R : handles → handles → Prop.
Hypothesis R_refl : ∀ h, R h h.
Hypothesis R_trans : ∀ h1 h2 h3, R h1 h2 → R h2 h3 → R h1 h3.

(** [m] ends, whatever its outcome, in handles related to those it
    started from. *)
Definition preserves {A} (m : M handles A) : Prop := ∀ h, R h (m h).2.

Lemma preserves_mret {A} (a : A) : preserves (mret a).
Proof. intros h. apply R_refl. Qed.

Lemma preserves_raise {A} e : preserves (raise (A:=A) e).
Proof. intros h. apply R_refl. Qed.

Lemma preserves_lift {A} (r : result A) : preserves (lift r).
Proof. intros h. apply R_refl. Qed.

Lemma preserves_gets {A} (f : handles → A) : preserves (gets f).
Proof. intros h. apply R_refl. Qed.

Lemma preserves_bind {A B} (m : M handles A) (k : A → M handles B) :
  preserves m → (∀ a, preserves (k a)) → preserves (m ≫= k).
Proof.
  intros Hm Hk h. unfold mbind, M_bind. specialize (Hm h).
  destruct (m h) as [[a|e] h1]; [|done].
  eapply R_trans; [exact Hm | apply Hk].
Qed.

Lemma preserves_try_except {A} (body : M handles A) handler :
  preserves body → (∀ e, preserves (handler e)) →
  preserves (try_except body handler).
Proof.
  intros Hb Hh h. unfold try_except. specialize (Hb h).
  destruct (body h) as [[a|e] h1]; [done|].
  eapply R_trans; [exact Hb | apply Hh].
Qed.

Lemma preserves_for_each {X} (l : list X) (body : X → M handles unit) :
  (∀ x, preserves (body x)) → preserves (for_each l body).
Proof.
  intros Hb. induction l as [|x l IH]; [apply preserves_mret|].
  cbn [for_each]. apply preserves_bind; [apply Hb | by intros _].
Qed.

Variable log_callback : bool.
Hypothesis R_emit : ∀ msg, preserves (emit log_callback msg).
Hypothesis R_payload_seek : ∀ offset, preserves (payload_seek offset).
Hypothesis R_payload_read : ∀ size, preserves (payload_read size).
Hypothesis R_out_seek : ∀ offset, preserves (out_seek offset).
Hypothesis R_out_write : ∀ d, preserves (out_write d).
Hypothesis R_old_seek : ∀ offset, preserves (old_seek offset).
Hypothesis R_old_read : ∀ size, preserves (old_read size).

Ltac step :=
  first
    [ apply preserves_bind; [|intros ?]
    | apply preserves_mret | apply preserves_raise | apply preserves_lift
    | apply preserves_gets | apply R_emit | apply R_payload_seek
    | apply R_payload_read | apply R_out_seek | apply R_out_write
    | apply R_old_seek | apply R_old_read
    | apply preserves_for_each; intros ?
    | apply preserves_try_except; [|intros ?]
    | match goal with
      | |- preserves (if ?c then _ else _) => destruct c
      | |- preserves (match ?x with _ => _ end) => destruct x
      end ].

Lemma preserves_first_extent exts : preserves (first_extent exts).
Proof. unfold first_extent. repeat step. Qed.

Lemma preserves_gather block_size exts tmp_buff :
  preserves (gather block_size exts tmp_buff).
Proof.
  revert tmp_buff. induction exts as [|ext exts IH]; intros tmp_buff;
    cbn [gather]; repeat step. apply IH.
Qed.

Lemma preserves_scatter block_size exts n tmp_buff :
  preserves (scatter block_size exts n tmp_buff).
Proof.
  revert n tmp_buff. induction exts as [|ext exts IH]; intros n tmp_buff;
    cbn [scatter]; repeat step. apply IH.
Qed.

Lemma preserves_dispatch op block_size raw :
  preserves (dispatch op block_size log_callback raw).
Proof.
  unfold dispatch, write_at_first_extent, copy_extents, zero_extents.
  repeat first [ step | apply preserves_first_extent | apply preserves_gather
               | apply preserves_scatter ].
Qed.

Lemma preserves_data_for_op op data_offset block_size :
  preserves (data_for_op op data_offset block_size log_callback).
Proof.
  unfold data_for_op, verify.
  repeat first [ step | apply preserves_dispatch ].
Qed.

End preserves.





(** X12. Without a log hook the engine records no line, whatever the
    operation and its outcome. *)
Theorem data_for_op_silent_without_hook op data_offset block_size h :
  log (data_for_op op data_offset block_size false h).2 = log h.
Proof.
  apply (preserves_data_for_op same_log); unfold preserves, same_log.
  - done.
  - intros h1 h2 h3 E1 E2. congruence.
  - done.
  - done.
  - intros size h0. unfold payload_read. by destruct (read _ _).
  - done.
  - done.
  - intros offset h0. unfold old_seek. by destruct (old_file h0).
  - intros size h0. unfold old_read. destruct (old_file h0) as [f|]; [|done].
    by destruct (read f size).
Qed.

End Engine.

(** * Further properties of the patch reader *)

Section Reader.
Context {libs : Libraries}.

Lemma be_value_bound (x : bytes) :
  (be_value x < 256 ^ N.of_nat (length x))%N.
Proof.
  assert (Hgen : ∀ (l : bytes) acc,
            (fold_left (λ acc c, (acc * 256 + Byte.to_N c)%N) l acc
             < (acc + 1) * 256 ^ N.of_nat (length l))%N).
  { induction l as [|c l IH]; intros acc; cbn [fold_left length].
    - cbn. lia.
    - eapply N.lt_le_trans; [apply IH|].
      pose proof (Byte.to_N_bounded c).
      rewrite Nat2N.inj_succ, N.pow_succ_r'. nia. }
  specialize (Hgen x 0%N). unfold be_value. lia.
Qed.

Lemma decode_int64_length x :
  (length x = 8 → ∃ z, decode_int64 x = Ok z ∧ (- 2 ^ 63 < z < 2 ^ 63)%Z)
  ∧ (length x ≠ 8 → decode_int64 x = Raise (ValueError "8 bytes expected")).
Proof.
  unfold decode_int64. split; intros Hl.
  - rewrite bool_decide_eq_true_2 by done. cbv zeta.
    pose proof (be_value_bound (reverse x)) as Hb.
    rewrite length_reverse, Hl in Hb. change (256 ^ N.of_nat 8)%N with (2 ^ 64)%N in Hb.
    destruct (N.ltb_spec (be_value (reverse x)) (2 ^ 63)); eexists; split;
      try reflexivity; lia.
  - by rewrite bool_decide_eq_false_2.
Qed.

(** The integer an 8-byte field holds. *)
Definition int64 (x : bytes) : Z :=
  match decode_int64 x with Ok z => z | Raise _ => 0%Z end.

Lemma decode_int64_int64 x : length x = 8 → decode_int64 x = Ok (int64 x).
Proof.
  intros Hl. unfold int64.
  by destruct (proj1 (decode_int64_length x) Hl) as (z & -> & _).
Qed.

Lemma length_slice (x : bytes) i j :
  length (slice x i j) = (j - i) `min` (length x - i).
Proof. unfold slice. by rewrite length_take, length_drop. Qed.

(** The triple of the 24-byte record at offset [i]. *)
Definition control_record (bc : bytes) (i : nat) : Z * Z * Z :=
  (int64 (slice bc i (i + 8)), int64 (slice bc (i + 8) (i + 16)),
   int64 (slice bc (i + 16) (i + 24))).

Lemma mapM_result_ok {A B} (f : A → result B) (g : A → B) (l : list A) :
  (∀ x, x ∈ l → f x = Ok (g x)) → mapM_result f l = Ok (g <$> l).
Proof.
  induction l as [|x l IH]; intros Hf; [done|].
  cbn [mapM_result]. rewrite (Hf x) by left.
  by rewrite IH by (intros y Hy; apply Hf; by right).
Qed.

Lemma mapM_result_last_raises {A B} (f : A → result B) (l : list A) x e :
  (∀ y, y ∈ l → ∃ v, f y = Ok v) → f x = Raise e →
  mapM_result f (l ++ [x]) = Raise e.
Proof.
  induction l as [|y l IH]; intros Hf Hx; cbn [app mapM_result].
  - by rewrite Hx.
  - destruct (Hf y) as [v ->]; [left|].
    by rewrite IH by (try done; intros z Hz; apply Hf; by right).
Qed.

Lemma range_step_24 n r :
  r < 24 →
  range_step (24 * n + r) 24
  = (λ k, k * 24) <$> seq 0 (if decide (r = 0) then n else S n).
Proof.
  intros Hr. unfold range_step. f_equal. f_equal.
  destruct (decide (r = 0)) as [->|Hne].
  - symmetry. apply (Nat.div_unique _ 24 n 23); lia.
  - symmetry. apply (Nat.div_unique _ 24 (S n) (r - 1)); lia.
Qed.

(** X13. The control block of a patch is read as records of 24 bytes,
    three 8-byte integers each.  A block whose length is a multiple of 24
    gives one triple per record, in order; any other length ends on the
    [ValueError] that [decode_int64] raises on the short slice of the last
    record. *)
Theorem control_tuples_records (bc : bytes) :
  (length bc mod 24 = 0 →
     control_tuples (Some bc)
     = Ok ((λ k, control_record bc (k * 24)) <$> seq 0 (length bc / 24)))
  ∧ (length bc mod 24 ≠ 0 →
     control_tuples (Some bc) = Raise (ValueError "8 bytes expected")).
Proof.
  pose proof (Nat.div_mod_eq (length bc) 24) as Hdm.
  pose proof (Nat.mod_upper_bound (length bc) 24 ltac:(done)) as Hlt.
  set (n := length bc / 24) in *. set (r := length bc mod 24) in *.
  unfold control_tuples. rewrite Hdm, range_step_24 by done.
  assert (Hfull : ∀ k, k < n →
            match decode_int64 (slice bc (k * 24) (k * 24 + 8)) with
            | Raise e => Raise e
            | Ok x =>
                match decode_int64 (slice bc (k * 24 + 8) (k * 24 + 16)) with
                | Raise e => Raise e
                | Ok y =>
                    match decode_int64 (slice bc (k * 24 + 16) (k * 24 + 24)) with
                    | Raise e => Raise e
                    | Ok z => Ok (x, y, z)
                    end
                end
            end = Ok (control_record bc (k * 24))).
  { intros k Hk. unfold control_record.
    rewrite !decode_int64_int64 by (rewrite length_slice; lia). done. }
  split; intros Hr.
  - rewrite decide_True by done.
    rewrite (mapM_result_ok _ (control_record bc)), <- list_fmap_compose.
    + done.
    + intros i Hi. apply list_elem_of_fmap in Hi as (k & -> & Hk).
      apply elem_of_seq in Hk. apply Hfull. lia.
  - rewrite decide_False by done.
    rewrite seq_S, fmap_app. cbn [fmap list_fmap plus].
    apply mapM_result_last_raises.
    + intros i Hi. apply list_elem_of_fmap in Hi as (k & -> & Hk).
      apply elem_of_seq in Hk. eexists. apply Hfull. lia.
    + destruct (decide (r < 8)) as [H8|H8].
      { by rewrite (proj2 (decode_int64_length _))
          by (rewrite length_slice; lia). }
      rewrite decode_int64_int64 by (rewrite length_slice; lia).
      destruct (decide (r < 16)) as [H16|H16].
      { by rewrite (proj2 (decode_int64_length _))
          by (rewrite length_slice; lia). }
      rewrite decode_int64_int64 by (rewrite length_slice; lia).
      by rewrite (proj2 (decode_int64_length _)) by (rewrite length_slice; lia).
Qed.

Lemma bind_lift {S A B} (r : result A) (k : A → M S B) s :
  (lift r ≫= k) s = match r with Ok a => k a s | Raise e => (Raise e, s) end.
Proof. by destruct r. Qed.

Lemma fread_spec size c pos :
  (0 ≤ size)%Z →
  fread size (File c pos)
  = (Ok (take (Z.to_nat size) (drop (N.to_nat pos) c)),
     File c (pos + N.of_nat (length (take (Z.to_nat size) (drop (N.to_nat pos) c))))).
Proof.
  intros Hs. unfold fread, read_Z. rewrite (proj2 (Z.ltb_ge _ _)) by lia.
  unfold read. cbn [contents position]. by rewrite Z_N_nat.
Qed.

Lemma fread_chunk (pre x post : bytes) size pos :
  N.to_nat pos = length pre → size = Z.of_nat (length x) →
  fread size (File (pre ++ x ++ post) pos)
  = (Ok x, File (pre ++ x ++ post) (pos + N.of_nat (length x))).
Proof.
  intros Hpos ->. rewrite fread_spec, Hpos, Nat2Z.id by lia.
  by rewrite drop_app_length, take_app_length.
Qed.

Lemma fread_all_rest (pre rest : bytes) pos :
  N.to_nat pos = length pre →
  fread_all (File (pre ++ rest) pos)
  = (Ok rest, File (pre ++ rest) (pos + N.of_nat (length rest))).
Proof.
  intros Hpos. unfold fread_all, read_all. cbn [contents position].
  by rewrite Hpos, drop_app_length.
Qed.

Lemma decode_int64_Ok_length x z : decode_int64 x = Ok z → length x = 8.
Proof.
  intros Hd. destruct (decide (length x = 8)) as [|Hne]; [done|].
  by rewrite (proj2 (decode_int64_length x) Hne) in Hd.
Qed.

(** X14. The layout of a BSDF2 patch: the magic, three algorithm bytes,
    three 8-byte lengths, then the control section of the first length,
    the diff section of the second, and the extra section up to the end.
    When each section decompresses and the control block decodes, the
    reader returns the third length, the control triples, and the
    decompressed diff and extra sections. *)
Theorem bsdf2_read_patch_layout (alg_control alg_diff alg_extra : byte)
    (len_control len_diff len_dst ctrl diff extra : bytes)
    bcontrol tcontrol bdiff bextra L_dst :
  decode_int64 len_control = Ok (Z.of_nat (length ctrl)) →
  decode_int64 len_diff = Ok (Z.of_nat (length diff)) →
  decode_int64 len_dst = Ok L_dst →
  bsdf2_decompress (Byte.to_N alg_control) ctrl = Ok bcontrol →
  control_tuples bcontrol = Ok tcontrol →
  bsdf2_decompress (Byte.to_N alg_diff) diff = Ok bdiff →
  bsdf2_decompress (Byte.to_N alg_extra) extra = Ok bextra →
  (bsdf2_read_patch
     (File (b "BSDF2" ++ [alg_control; alg_diff; alg_extra]
            ++ len_control ++ len_diff ++ len_dst ++ ctrl ++ diff ++ extra) 0)).1
  = Ok (L_dst, tcontrol, bdiff, bextra).
Proof.
  intros Hlc Hld Hldst Hc Htc Hd He.
  pose proof (decode_int64_Ok_length _ _ Hlc) as H1.
  pose proof (decode_int64_Ok_length _ _ Hld) as H2.
  pose proof (decode_int64_Ok_length _ _ Hldst) as H3.
  set (magic := b "BSDF2" ++ [alg_control; alg_diff; alg_extra]).
  set (stream := b "BSDF2" ++ _).
  assert (Hm : length magic = 8) by done.
  unfold bsdf2_read_patch.
  assert (Hs0 : stream = [] ++ magic
                      ++ (len_control ++ len_diff ++ len_dst ++ ctrl ++ diff ++ extra))
    by (unfold stream, magic; by rewrite <- !app_assoc).
  rewrite Hs0 at 1.
  rewrite (bind_ok _ _ _ _ _ (fread_chunk [] magic _ 8 0 eq_refl eq_refl)).
  rewrite <- Hs0.
  assert (Halgs : patch_algs magic
                  = Ok (Byte.to_N alg_control, Byte.to_N alg_diff, Byte.to_N alg_extra)).
  { unfold patch_algs. rewrite bool_decide_eq_false_2 by (by vm_compute).
    by rewrite bool_decide_eq_true_2. }
  rewrite bind_lift, Halgs. unfold read_sections.
  set (pos := (0 + N.of_nat (length magic))%N).
  assert (read_field : ∀ (pre x post : bytes) z p,
            decode_int64 x = Ok z → N.to_nat p = length pre →
            (fread 8 ≫= λ x, lift (decode_int64 x)) (File (pre ++ x ++ post) p)
            = (Ok z, File (pre ++ x ++ post) (p + 8))).
  { intros pre x post z p Hz Hp.
    pose proof (decode_int64_Ok_length _ _ Hz) as Hx.
    rewrite (bind_ok _ _ _ _ _
               (fread_chunk pre x post 8 p Hp ltac:(by rewrite Hx))).
    unfold lift. by rewrite Hz, Hx. }
  assert (Hs1 : stream = magic ++ len_control
                      ++ (len_diff ++ len_dst ++ ctrl ++ diff ++ extra))
    by (unfold stream, magic; by rewrite <- !app_assoc).
  rewrite Hs1 at 1.
  rewrite (bind_ok _ _ _ _ _ (read_field magic len_control _ _ pos Hlc eq_refl)).
  rewrite <- Hs1.
  assert (Hs2 : stream = (magic ++ len_control) ++ len_diff
                      ++ (len_dst ++ ctrl ++ diff ++ extra))
    by (unfold stream, magic; by rewrite <- !app_assoc).
  rewrite Hs2 at 1.
  rewrite (bind_ok _ _ _ _ _
             (read_field (magic ++ len_control) len_diff _ _ (pos + 8)%N Hld
                ltac:(rewrite length_app, H1; done))).
  rewrite <- Hs2.
  assert (Hs3 : stream = (magic ++ len_control ++ len_diff) ++ len_dst
                      ++ (ctrl ++ diff ++ extra))
    by (unfold stream, magic; by rewrite <- !app_assoc).
  rewrite Hs3 at 1.
  rewrite (bind_ok _ _ _ _ _
             (read_field (magic ++ len_control ++ len_diff) len_dst _ _
                (pos + 8 + 8)%N Hldst
                ltac:(rewrite !length_app, H1, H2; done))).
  rewrite <- Hs3.
  assert (Hs4 : stream = (magic ++ len_control ++ len_diff ++ len_dst) ++ ctrl
                      ++ (diff ++ extra))
    by (unfold stream, magic; by rewrite <- !app_assoc).
  assert (Hctrl : (fread (Z.of_nat (length ctrl))
                   ≫= λ x, lift (bsdf2_decompress (Byte.to_N alg_control) x))
                    (File stream (pos + 8 + 8 + 8))
                  = (Ok bcontrol,
                     File stream (pos + 8 + 8 + 8 + N.of_nat (length ctrl)))).
  { rewrite Hs4.
    rewrite (bind_ok _ _ _ _ _
               (fread_chunk (magic ++ len_control ++ len_diff ++ len_dst) ctrl _ _ (pos + 8 + 8 + 8)%N
                  ltac:(rewrite !length_app, H1, H2, H3; done) eq_refl)).
    unfold lift. by rewrite Hc. }
  rewrite (bind_ok _ _ _ _ _ Hctrl), bind_lift, Htc.
  assert (Hs5 : stream = (magic ++ len_control ++ len_diff ++ len_dst ++ ctrl)
                      ++ diff ++ extra)
    by (unfold stream, magic; by rewrite <- !app_assoc).
  assert (Hdiff : (fread (Z.of_nat (length diff))
                   ≫= λ x, lift (bsdf2_decompress (Byte.to_N alg_diff) x))
                    (File stream (pos + 8 + 8 + 8 + N.of_nat (length ctrl)))
                  = (Ok bdiff,
                     File stream (pos + 8 + 8 + 8 + N.of_nat (length ctrl)
                                  + N.of_nat (length diff)))).
  { rewrite Hs5.
    rewrite (bind_ok _ _ _ _ _
               (fread_chunk (magic ++ len_control ++ len_diff ++ len_dst ++ ctrl) diff _ _ (pos + 8 + 8 + 8 + N.of_nat (length ctrl))%N
                  ltac:(rewrite !length_app, H1, H2, H3; unfold pos; rewrite Hm; lia)
                  eq_refl)).
    unfold lift. by rewrite Hd. }
  rewrite (bind_ok _ _ _ _ _ Hdiff).
  assert (Hs6 : stream = (magic ++ len_control ++ len_diff ++ len_dst ++ ctrl ++ diff)
                      ++ extra)
    by (unfold stream, magic; by rewrite <- !app_assoc).
  assert (Hextra : (fread_all
                    ≫= λ x, lift (bsdf2_decompress (Byte.to_N alg_extra) x))
                     (File stream (pos + 8 + 8 + 8 + N.of_nat (length ctrl)
                                   + N.of_nat (length diff)))
                   = (Ok bextra,
                      File stream (pos + 8 + 8 + 8 + N.of_nat (length ctrl)
                                   + N.of_nat (length diff)
                                   + N.of_nat (length extra)))).
  { rewrite Hs6.
    rewrite (bind_ok _ _ _ _ _
               (fread_all_rest (magic ++ len_control ++ len_diff ++ len_dst ++ ctrl ++ diff) extra
                  (pos + 8 + 8 + 8 + N.of_nat (length ctrl) + N.of_nat (length diff))%N
                  ltac:(rewrite !length_app, H1, H2, H3; unfold pos; rewrite Hm; lia))).
    unfold lift. by rewrite He. }
  by rewrite (bind_ok _ _ _ _ _ Hextra).
Qed.

End Reader.

(** * Further properties of the partition driver *)

Section Driver.
Context {libs : Libraries}.

(** The body of the loop of lines 295-298. *)
Definition op_body (data_offset block_size : N) (log_callback : bool)
    (op : um.InstallOperation) : M handles unit :=
  data_for_op op data_offset block_size log_callback;;
  emit log_callback ("  Operation " +:+ pretty (um.type op) +:+ " completed.").

(** The old image [dump_part] opens, once the output file has been
    created. *)
Definition old_image (part : um.PartitionUpdate) (out_dir : string)
    (old_dir : option string) (use_diff : bool) (w : world) : option file :=
  if use_diff
  then (λ c, File c 0)
         <$> (<[img_path out_dir (um.partition_name part) := []]> (fs w))
               !! img_path (str_path old_dir) (um.partition_name part)
  else None.

Lemma open_wb_spec path pf w :
  open_wb path (pf, w)
  = (Ok tt, (pf, World (<[path := []]> (fs w)) (log_lines w) (progress_calls w)
                       (opened w ++ [path]))).
Proof. done. Qed.

Lemma run_operations_spec part data_offset block_size out_dir log_callback old
    pf w :
  run_operations part data_offset block_size out_dir log_callback old (pf, w)
  = let rh := for_each (um.operations part)
                (op_body data_offset block_size log_callback)
                (Handles pf (File [] 0) old (log_lines w)) in
    (rh.1, (payload_file rh.2,
            World (<[img_path out_dir (um.partition_name part)
                     := contents (out_file rh.2)]> (fs w))
                  (log rh.2) (progress_calls w) (opened w))).
Proof.
  unfold run_operations.
  change (λ op : um.InstallOperation, _)
    with (op_body data_offset block_size log_callback).
  by destruct (for_each _ _ _).
Qed.

(** [dump_part] is the loop over the operations, on an empty output file
    and the old image; the output file holds what the loop wrote, whether
    the loop ended or raised. *)
Lemma dump_part_for_each part data_offset block_size out_dir old_dir use_diff
    log_callback pf w :
  ∃ lg,
    let rh := for_each (um.operations part)
                (op_body data_offset block_size log_callback)
                (Handles pf (File [] 0)
                   (old_image part out_dir old_dir use_diff w) lg) in
    let r := dump_part part data_offset block_size out_dir old_dir use_diff
               log_callback (pf, w) in
    r.1 = rh.1 ∧ r.2.1 = payload_file rh.2
    ∧ fs r.2.2 = <[img_path out_dir (um.partition_name part)
                   := contents (out_file rh.2)]> (fs w).
Proof.
  destruct w as [fs0 lg0 pc0 op0]. unfold dump_part.
  set (out_path := img_path out_dir (um.partition_name part)).
  rewrite (bind_ok _ _ _ _ _ (wlog_spec _ _ _ _)).
  rewrite (bind_ok _ _ _ _ _ (open_wb_spec _ _ _)).
  cbn [fs log_lines progress_calls opened].
  set (lg1 := if log_callback then _ else _).
  assert (Hold : ∃ lg2,
             open_old part old_dir use_diff log_callback
               (pf, World (<[out_path := []]> fs0) lg1 pc0 (op0 ++ [out_path]))
             = (Ok (old_image part out_dir old_dir use_diff (World fs0 lg0 pc0 op0)),
                (pf, World (<[out_path := []]> fs0) lg2 pc0 (op0 ++ [out_path])))).
  { unfold open_old, old_image. cbn [fs]. fold out_path.
    destruct use_diff; [|by eexists].
    unfold gets. unfold mbind at 1, M_bind at 1. cbn [fs].
    destruct (<[out_path := []]> fs0 !! _) as [c|]; [by eexists|].
    cbn [fmap option_fmap option_map].
    rewrite (bind_ok _ _ _ _ _ (wlog_spec _ _ _ _)). by eexists. }
  destruct Hold as [lg2 Hold]. exists lg2.
  rewrite (bind_ok _ _ _ _ _ Hold).
  unfold mbind, M_bind. rewrite run_operations_spec.
  cbn [fs log_lines progress_calls opened fst snd]. fold out_path.
  destruct (for_each _ _ _) as [[[]|e] h]; cbn [fst snd].
  - rewrite wlog_spec. cbn [fst snd fs]. by rewrite insert_insert_eq.
  - cbn [fs]. by rewrite insert_insert_eq.
Qed.

(** *** A partition of REPLACE operations *)

(** The payload bytes of [op]: [data_length] bytes from
    [data_offset + op.data_offset], fewer at the end of the payload. *)
Definition blob (payload : bytes) (data_offset : N) (op : um.InstallOperation)
  : bytes :=
  take (N.to_nat (um.data_length op))
       (drop (N.to_nat (data_offset + um.data_offset op)) payload).




Lemma for_each_app {S X} (l1 l2 : list X) (body : X → M S unit) s :
  for_each (l1 ++ l2) body s
  = match for_each l1 body s with
    | (Ok _, s') => for_each l2 body s'
    | (Raise e, s') => (Raise e, s')
    end.
Proof.
  revert s. induction l1 as [|x l1 IH]; intros s; [done|].
  cbn [app]. rewrite !for_each_cons.
  destruct (body x s) as [[[]|e] s']; [apply IH | done].
Qed.





(** *** The file at the output path *)

(** [w] with [c] at [path]. *)
Definition with_file (path : string) (c : bytes) (w : world) : world :=
  World (<[path := c]> (fs w)) (log_lines w) (progress_calls w) (opened w).

(** X17. [dump_part] truncates its image file: its outcome and the world
    it leaves do not depend on what the image path held before. *)
Theorem dump_part_discards_previous_image part data_offset block_size out_dir
    old_dir use_diff log_callback pf w c :
  dump_part part data_offset block_size out_dir old_dir use_diff log_callback
    (pf, with_file (img_path out_dir (um.partition_name part)) c w)
  = dump_part part data_offset block_size out_dir old_dir use_diff log_callback
      (pf, w).
Proof.
  unfold dump_part, with_file.
  rewrite !(bind_ok _ _ _ _ _ (wlog_spec _ _ _ _)).
  rewrite !(bind_ok _ _ _ _ _ (open_wb_spec _ _ _)).
  cbn [fs log_lines progress_calls opened]. by rewrite insert_insert_eq.
Qed.










End Driver.

(** * Further properties of the run controller *)

Section Run.
Context {libs : Libraries}.

(** [untouched path m]: whatever its outcome, [m] leaves the file at
    [path] as it was: absent, or with the same bytes. *)
Definition untouched (path : string) {A} (m : M (file * world) A) : Prop :=
  ∀ s, fs (m s).2.2 !! path = fs s.2 !! path.

Lemma untouched_bind path {A B} (m : M (file * world) A)
    (k : A → M (file * world) B) :
  untouched path m → (∀ a, untouched path (k a)) → untouched path (m ≫= k).
Proof.
  intros Hm Hk s. unfold mbind, M_bind. specialize (Hm s).
  destruct (m s) as [[a|e] s1]; cbn [fst snd] in *; [|done].
  by rewrite Hk.
Qed.

Lemma untouched_mret path {A} (a : A) : untouched path (mret a).
Proof. by intros s. Qed.

Lemma untouched_raise path {A} e : untouched path (raise (A:=A) e).
Proof. by intros s. Qed.

Lemma untouched_lift path {A} (r : result A) : untouched path (lift r).
Proof. by intros s. Qed.

Lemma untouched_gets path {A} (f : file * world → A) : untouched path (gets f).
Proof. by intros s. Qed.

Lemma untouched_wlog path lc msg : untouched path (wlog lc msg).
Proof. intros [pf w]. by rewrite wlog_spec. Qed.

Lemma untouched_report path pc pct : untouched path (report pc pct).
Proof. intros [pf w]. by rewrite report_spec. Qed.

Lemma untouched_pread path size : untouched path (pread size).
Proof. intros [pf w]. unfold pread. by destruct (read pf size). Qed.

Lemma untouched_dump_part path part data_offset block_size out_dir old_dir
    use_diff log_callback :
  path ≠ img_path out_dir (um.partition_name part) →
  untouched path (dump_part part data_offset block_size out_dir old_dir use_diff
                    log_callback).
Proof.
  intros Hne [pf w].
  destruct (dump_part_for_each part data_offset block_size out_dir old_dir
              use_diff log_callback pf w) as (lg & _ & _ & Hfs).
  cbn zeta in Hfs. by rewrite Hfs, lookup_insert_ne.
Qed.

Lemma untouched_run_loop path out_dir diff old_dir log_callback
    progress_callback cancel_flag data_offset block_size total parts :
  (∀ part, part ∈ parts → path ≠ img_path out_dir (um.partition_name part)) →
  ∀ idx, untouched path (run_loop out_dir diff old_dir log_callback
                           progress_callback cancel_flag data_offset block_size
                           total parts idx).
Proof.
  induction parts as [|part parts IH]; intros Hne idx.
  - apply untouched_mret.
  - cbn [run_loop]. destruct (cancelled cancel_flag idx); [apply untouched_wlog|].
    apply untouched_bind.
    { apply untouched_dump_part, Hne. left. }
    intros _. apply untouched_bind; [apply untouched_report|].
    intros _. apply IH. intros p Hp. apply Hne. by right.
Qed.

Lemma untouched_run_body path out_dir diff old_dir images log_callback
    progress_callback cancel_flag :
  (∀ name, path ≠ img_path out_dir name) →
  untouched path (run_body out_dir diff old_dir images log_callback
                    progress_callback cancel_flag).
Proof.
  intros Hne. unfold run_body.
  repeat first
    [ apply untouched_bind; [|intros ?]
    | apply untouched_mret | apply untouched_raise | apply untouched_lift
    | apply untouched_gets | apply untouched_wlog | apply untouched_pread
    | apply untouched_run_loop; intros ? _; apply Hne
    | match goal with
      | |- untouched _ (if ?c then _ else _) => destruct c
      end ].
Qed.

Lemma fs_opening lc w : fs (opening lc w) = fs w.
Proof. unfold opening. by destruct lc. Qed.

Lemma fs_closing lc r : fs (closing lc r).2 = fs r.2.2.
Proof. unfold closing. destruct r as [[[]|e] [pf w]]; [|done]. by destruct lc. Qed.

(** X20. A run, whatever the payload and its outcome, changes no file
    whose path is not of the form [out_dir/<name>.img]. *)
Theorem run_writes_only_images payload_path out_dir diff old_dir images
    log_callback progress_callback cancel_flag w path :
  (∀ name, path ≠ img_path out_dir name) →
  fs (run_payload_dumper payload_path out_dir diff old_dir images log_callback
        progress_callback cancel_flag w).2 !! path
  = fs w !! path.
Proof.
  intros Hne.
  destruct (open_payload_file payload_path) as [payload|e] eqn:Hopen.
  - rewrite (run_payload_dumper_body _ _ _ _ _ _ _ _ _ _ Hopen).
    rewrite fs_closing, <- (fs_opening log_callback w).
    by apply untouched_run_body.
  - unfold run_payload_dumper. rewrite Hopen. by destruct log_callback.
Qed.

(** X21. For a payload that decodes, a run changes no file other than the
    images of the selected partitions: the images of partitions outside
    the allow-list are left as they were. *)
Theorem run_writes_only_selected_images payload_path out_dir diff old_dir images
    log_callback progress_callback cancel_flag payload dam data_offset w path :
  open_payload_file payload_path = Ok payload →
  decodes payload dam data_offset →
  (∀ part, part ∈ parts_to_dump dam images →
           path ≠ img_path out_dir (um.partition_name part)) →
  fs (run_payload_dumper payload_path out_dir diff old_dir images log_callback
        progress_callback cancel_flag w).2 !! path
  = fs w !! path.
Proof.
  intros Hopen Hdec Hne.
  rewrite (run_payload_dumper_decoded _ _ _ _ _ _ _ _ _ _ _ _ Hopen Hdec).
  rewrite fs_closing, <- (fs_opening log_callback w).
  by apply (untouched_run_loop path).
Qed.

(** [w] after the log hook, when there is one, received [lines]. *)
Definition logged (log_callback : bool) (lines : list string) (w : world)
  : world :=
  World (fs w) (if log_callback then log_lines w ++ lines else log_lines w)
        (progress_calls w) (opened w).

(** X22. When the cancel hook answers true at its first poll and at least
    one partition is selected, the run returns normally, having opened no
    file and reported no progress; the log hook receives the opening line,
    the cancellation line and the closing line. *)
Theorem cancelled_at_first_poll payload_path out_dir diff old_dir images
    log_callback progress_callback poll payload dam data_offset w :
  open_payload_file payload_path = Ok payload →
  decodes payload dam data_offset →
  parts_to_dump dam images ≠ [] →
  poll 0 = true →
  run_payload_dumper payload_path out_dir diff old_dir images log_callback
    progress_callback (Some poll) w
  = (Ok tt, logged log_callback
              ["Opening payload file..."; "Extraction cancelled."; "All done."]
              w).
Proof.
  intros Hopen Hdec Hparts Hpoll.
  rewrite (run_payload_dumper_decoded _ _ _ _ _ _ _ _ _ _ _ _ Hopen Hdec).
  destruct (parts_to_dump dam images) as [|part parts]; [done|].
  cbn [run_loop]. unfold cancelled. rewrite Hpoll, wlog_spec.
  unfold closing, opening, logged. destruct w, log_callback; cbn; [|done].
  by rewrite <- !app_assoc.
Qed.

(** X23. A non-empty allow-list that names no partition of the manifest:
    the run returns normally, extracts nothing, and logs only the opening
    line and the closing line. *)
Theorem allow_list_without_match_extracts_nothing payload_path out_dir diff
    old_dir images log_callback progress_callback cancel_flag payload dam
    data_offset w :
  open_payload_file payload_path = Ok payload →
  decodes payload dam data_offset →
  images ≠ [] →
  (∀ part, part ∈ um.partitions dam → um.partition_name part ∉ images) →
  run_payload_dumper payload_path out_dir diff old_dir (Some images)
    log_callback progress_callback cancel_flag w
  = (Ok tt, logged log_callback ["Opening payload file..."; "All done."] w).
Proof.
  intros Hopen Hdec Hne Hnone.
  rewrite (run_payload_dumper_decoded _ _ _ _ _ _ _ _ _ _ _ _ Hopen Hdec).
  assert (Hsel : parts_to_dump dam (Some images) = []).
  { unfold parts_to_dump. destruct images as [|i images']; [done|].
    revert Hnone. generalize (i :: images'). intros l.
    induction (um.partitions dam) as [|part parts IH]; intros Hl; [done|].
    rewrite filter_cons. destruct (decide _) as [Hin|_].
    - exfalso. by apply (Hl part); [left|].
    - apply IH. intros p Hp. apply Hl. by right. }
  rewrite Hsel. cbn [run_loop length].
  unfold closing, opening, logged, mret, M_ret.
  destruct w, log_callback; cbn; [|done].
  by rewrite <- !app_assoc.
Qed.

(** The files the loop opens when the hook answers true at the poll of
    index [idx + i]: those of at most [i] partitions. *)
Lemma run_loop_cancel_bound out_dir diff old_dir log_callback progress_callback
    cancel_flag data_offset block_size total parts :
  ∀ idx i s,
    cancelled cancel_flag (idx + i) = true →
    ∃ k, (k ≤ i)%nat
         ∧ opened (run_loop out_dir diff old_dir log_callback progress_callback
                     cancel_flag data_offset block_size total parts idx s).2.2
           = opened s.2
             ++ ((λ part, img_path out_dir (um.partition_name part))
                   <$> take k parts).
Proof.
  induction parts as [|part parts IH]; intros idx i s Hc.
  - exists 0. cbn. split; [lia|]. by rewrite app_nil_r.
  - rewrite run_loop_cons.
    destruct (cancelled cancel_flag idx) eqn:Hidx.
    + exists 0. destruct s as [pf w]. rewrite wlog_spec. cbn.
      split; [lia|]. by rewrite app_nil_r.
    + destruct i as [|i]; [rewrite Nat.add_0_r in Hc; congruence|].
      pose proof (dump_part_traces part data_offset block_size out_dir
                    (if diff then Some old_dir else None) diff log_callback s)
        as [_ Ho].
      cbn zeta in Ho.
      destruct (dump_part _ _ _ _ _ _ _ s) as [[[]|e] [pf w]]; cbn [fst snd] in *.
      * destruct (IH (S idx) i
                    (report progress_callback (percent total idx) (pf, w)).2)
          as (k & Hk & Hop); [by rewrite Nat.add_succ_comm|].
        exists (S k). split; [lia|].
        rewrite Hop, report_spec. cbn [fst snd opened firstn fmap list_fmap].
        by rewrite Ho, <- app_assoc.
      * exists 1. split; [lia|]. by rewrite Ho.
Qed.

(** X24. Once the cancel hook answers true at the poll of index [i], no
    partition of index [i] or more is opened: the files opened are those
    of the first [k] selected partitions, for some [k] not above [i]. *)
Theorem cancel_stops_before_partition payload_path out_dir diff old_dir images
    log_callback progress_callback poll payload dam data_offset w i :
  open_payload_file payload_path = Ok payload →
  decodes payload dam data_offset →
  poll i = true →
  let run := run_payload_dumper payload_path out_dir diff old_dir images
               log_callback progress_callback (Some poll) w in
  ∃ k, (k ≤ i)%nat
       ∧ opened run.2
         = opened w ++ ((λ part, img_path out_dir (um.partition_name part))
                          <$> take k (parts_to_dump dam images)).
Proof.
  intros Hopen Hdec Hpoll run. subst run.
  rewrite (run_payload_dumper_decoded _ _ _ _ _ _ _ _ _ _ _ _ Hopen Hdec).
  match goal with |- context [closing _ ?r] =>
    destruct (closing_traces log_callback r) as (_ & _ & Ho) end.
  destruct (run_loop_cancel_bound out_dir diff old_dir log_callback
              progress_callback (Some poll) data_offset (um.block_size dam)
              (length (parts_to_dump dam images)) (parts_to_dump dam images)
              0 i (File payload data_offset, opening log_callback w) Hpoll)
    as (k & Hk & Hop).
  exists k. split; [done|]. rewrite Ho, Hop. cbn [snd]. f_equal.
  unfold opening. by destruct log_callback.
Qed.

Lemma pread_u64_short payload pos w :
  (length (drop (N.to_nat pos) payload) < 8)%nat →
  ∃ pf', (pread 8 ≫= λ x, lift (u64 x)) (File payload pos, w)
         = (Raise (StructError "unpack requires a buffer of 8 bytes"), (pf', w)).
Proof.
  intros Hshort. rewrite (bind_ok _ _ _ _ _ (pread_spec _ _ _ _)).
  unfold lift, u64. rewrite bool_decide_eq_false_2; [by eexists|].
  rewrite length_take. change (N.to_nat 8) with 8. lia.
Qed.

Lemma pread_u64_full payload pos w :
  (8 ≤ length (drop (N.to_nat pos) payload))%nat →
  (pread 8 ≫= λ x, lift (u64 x)) (File payload pos, w)
  = (Ok (be_value (take 8 (drop (N.to_nat pos) payload))),
     (File payload (pos + 8), w)).
Proof.
  intros Hfull. rewrite (bind_ok _ _ _ _ _ (pread_spec _ _ _ _)).
  change (N.to_nat 8) with 8.
  assert (Hl : length (take 8 (drop (N.to_nat pos) payload)) = 8)
    by (rewrite length_take; lia).
  unfold lift, u64. by rewrite bool_decide_eq_true_2, Hl.
Qed.

Lemma pread_u32_short payload pos w :
  (length (drop (N.to_nat pos) payload) < 4)%nat →
  ∃ pf', (pread 4 ≫= λ x, lift (u32 x)) (File payload pos, w)
         = (Raise (StructError "unpack requires a buffer of 4 bytes"), (pf', w)).
Proof.
  intros Hshort. rewrite (bind_ok _ _ _ _ _ (pread_spec _ _ _ _)).
  unfold lift, u32. rewrite bool_decide_eq_false_2; [by eexists|].
  rewrite length_take. change (N.to_nat 4) with 4. lia.
Qed.

(** X25. A payload that opens, has the magic and, as far as it goes, the
    version 2, and ends before the 24 bytes of its header are complete:
    the run raises [struct.error] from [u64] or [u32] on the short read,
    with no file opened; the log hook has received the opening line
    only. *)
Theorem short_header_raises_struct_error payload_path out_dir diff old_dir
    images log_callback progress_callback cancel_flag payload w :
  open_payload_file payload_path = Ok payload →
  take 4 payload = b "CrAU" →
  (length payload < 24)%nat →
  ((12 ≤ length payload)%nat → be_value (take 8 (drop 4 payload)) = 2%N) →
  run_payload_dumper payload_path out_dir diff old_dir images log_callback
    progress_callback cancel_flag w
  = (Raise (StructError (if (length payload <? 20)%nat
                         then "unpack requires a buffer of 8 bytes"
                         else "unpack requires a buffer of 4 bytes")),
     logged log_callback ["Opening payload file..."] w).
Proof.
  intros Hopen Hmagic Hlen Hver.
  rewrite (run_payload_dumper_body _ _ _ _ _ _ _ _ _ _ Hopen).
  assert (Hw : opening log_callback w
               = logged log_callback ["Opening payload file..."] w)
    by (unfold opening, logged; by destruct log_callback, w).
  rewrite Hw. set (w1 := logged _ _ _). clearbody w1.
  assert (H4 : (4 ≤ length payload)%nat).
  { apply (f_equal length) in Hmagic. rewrite length_take in Hmagic.
    change (length (b "CrAU")) with 4 in Hmagic. lia. }
  enough (Hbody : ∃ pf',
            run_body out_dir diff old_dir images log_callback progress_callback
              cancel_flag (File payload 0, w1)
            = (Raise (StructError (if (length payload <? 20)%nat
                                   then "unpack requires a buffer of 8 bytes"
                                   else "unpack requires a buffer of 4 bytes")),
               (pf', w1))).
  { destruct Hbody as [pf' ->]. done. }
  unfold run_body.
  rewrite (bind_ok _ _ _ _ _ (pread_spec _ _ _ _)).
  change (N.to_nat 0) with 0. change (N.to_nat 4) with 4.
  rewrite drop_0, Hmagic.
  rewrite bool_decide_eq_false_2 by (intros Hn; by apply Hn).
  rewrite bind_mret.
  change (0 + N.of_nat (length (b "CrAU")))%N with 4%N.
  destruct (decide (length payload < 12)%nat) as [Hlt|Hge].
  { destruct (pread_u64_short payload 4 w1) as [pf' Hr].
    { rewrite length_drop. change (N.to_nat 4) with 4. lia. }
    rewrite (bind_raise _ _ _ _ _ Hr).
    rewrite (proj2 (Nat.ltb_lt _ _)) by lia. by eexists. }
  rewrite (bind_ok _ _ _ _ _ (pread_u64_full payload 4 w1
             ltac:(rewrite length_drop; change (N.to_nat 4) with 4; lia))).
  change (N.to_nat 4) with 4. rewrite Hver by lia.
  rewrite bool_decide_eq_false_2 by (intros Hn; by apply Hn).
  rewrite bind_mret. change (4 + 8)%N with 12%N.
  destruct (decide (length payload < 20)%nat) as [Hlt|Hge20].
  { destruct (pread_u64_short payload 12 w1) as [pf' Hr].
    { rewrite length_drop. change (N.to_nat 12) with 12. lia. }
    rewrite (bind_raise _ _ _ _ _ Hr).
    rewrite (proj2 (Nat.ltb_lt _ _)) by lia. by eexists. }
  rewrite (bind_ok _ _ _ _ _ (pread_u64_full payload 12 w1
             ltac:(rewrite length_drop; change (N.to_nat 12) with 12; lia))).
  change (1 <? 2)%N with true. cbv iota. change (12 + 8)%N with 20%N.
  destruct (pread_u32_short payload 20 w1) as [pf' Hr].
  { rewrite length_drop. change (N.to_nat 20) with 20. lia. }
  rewrite (bind_raise _ _ _ _ _ Hr).
  rewrite (proj2 (Nat.ltb_ge _ _)) by lia. by eexists.
Qed.

End Run.

(** * Further properties of the byte utilities *)

Section Unpack.

Lemma be_value_snoc (x : bytes) c :
  be_value (x ++ [c]) = (be_value x * 256 + Byte.to_N c)%N.
Proof. unfold be_value. by rewrite fold_left_app. Qed.

Lemma to_N_byte_of_N n : Byte.to_N (byte_of_N n) = (n mod 256)%N.
Proof.
  unfold byte_of_N. destruct (Byte.of_N (n mod 256)) as [c|] eqn:E.
  - by apply Byte.to_of_N.
  - apply Byte.of_N_None_iff in E.
    pose proof (N.mod_upper_bound n 256 ltac:(done)). lia.
Qed.

Lemma byte_of_N_to_N c : byte_of_N (Byte.to_N c) = c.
Proof.
  unfold byte_of_N. pose proof (Byte.to_N_bounded c).
  rewrite N.mod_small by lia. by rewrite Byte.of_to_N.
Qed.

Lemma length_be_bytes len n : length (be_bytes len n) = len.
Proof.
  revert n. induction len as [|len IH]; intros n; [done|].
  cbn [be_bytes]. rewrite length_app, IH. cbn. lia.
Qed.

Lemma be_value_be_bytes len n :
  (n < 256 ^ N.of_nat len)%N → be_value (be_bytes len n) = n.
Proof.
  revert n. induction len as [|len IH]; intros n Hn.
  - cbn in *. lia.
  - cbn [be_bytes]. rewrite be_value_snoc, to_N_byte_of_N, IH.
    + pose proof (N.div_mod n 256 ltac:(done)). lia.
    + rewrite Nat2N.inj_succ, N.pow_succ_r' in Hn.
      apply N.Div0.div_lt_upper_bound. lia.
Qed.

Lemma be_bytes_be_value (x : bytes) : be_bytes (length x) (be_value x) = x.
Proof.
  induction x as [|c x IH] using rev_ind; [done|].
  rewrite length_app, Nat.add_comm. cbn [length Nat.add be_bytes].
  rewrite be_value_snoc. pose proof (Byte.to_N_bounded c).
  replace ((be_value x * 256 + Byte.to_N c) / 256)%N with (be_value x).
  2:{ apply N.div_unique with (Byte.to_N c); lia. }
  rewrite IH. f_equal.
  replace (byte_of_N (be_value x * 256 + Byte.to_N c)) with (byte_of_N (Byte.to_N c)).
  - by rewrite byte_of_N_to_N.
  - unfold byte_of_N. f_equal. f_equal.
    rewrite N.add_comm, N.Div0.mod_add. done.
Qed.

(** X26. [u64] and [u32] invert the big-endian encoding on 8 and on 4
    bytes: they return [n] on the encoding of [n], and whatever they
    return on [x] is below [2^64], respectively [2^32], and has [x] as its
    encoding. *)
Theorem unpack_inverts_big_endian :
  (∀ n, (n < 2 ^ 64)%N → u64 (be_bytes 8 n) = Ok n)
  ∧ (∀ x n, u64 x = Ok n → x = be_bytes 8 n ∧ (n < 2 ^ 64)%N)
  ∧ (∀ n, (n < 2 ^ 32)%N → u32 (be_bytes 4 n) = Ok n)
  ∧ (∀ x n, u32 x = Ok n → x = be_bytes 4 n ∧ (n < 2 ^ 32)%N).
Proof.
  split; [|split; [|split]].
  - intros n Hn. unfold u64.
    rewrite bool_decide_eq_true_2 by apply length_be_bytes.
    by rewrite be_value_be_bytes.
  - intros x n. unfold u64. case_bool_decide as Hl; [|done]. intros [= <-].
    split; [by rewrite <- Hl, be_bytes_be_value|].
    pose proof (be_value_bound x) as Hb. by rewrite Hl in Hb.
  - intros n Hn. unfold u32.
    rewrite bool_decide_eq_true_2 by apply length_be_bytes.
    by rewrite be_value_be_bytes.
  - intros x n. unfold u32. case_bool_decide as Hl; [|done]. intros [= <-].
    split; [by rewrite <- Hl, be_bytes_be_value|].
    pose proof (be_value_bound x) as Hb. by rewrite Hl in Hb.
Qed.

End Unpack.

(** * The command line *)

(** The character of the string [","]. *)
Definition comma : Ascii.ascii :=
  Ascii.Ascii false false true true false true false false.

(** [s.split(",")]: the segments of [s] between its commas.  A comma is
    one byte in UTF-8 and no byte of a longer sequence, so the segments
    of the bytes are those of the text. *)
Fixpoint split_comma (s : string) : list string :=
  match s with
  | EmptyString => [""]
  | String c s' =>
      if Ascii.eqb c comma then "" :: split_comma s'
      else match split_comma s' with
           | seg :: segs => String c seg :: segs
           | [] => [String c ""]
           end
  end.

(** Line 390: [args.images.split(",") if args.images else None]. *)
Definition cli_images (text : string) : option (list string) :=
  match text with
  | EmptyString => None
  | _ => Some (split_comma text)
  end.

(** [",".join(l)]. *)
Fixpoint join_comma (l : list string) : string :=
  match l with
  | [] => ""
  | [x] => x
  | x :: l' => x +:+ String comma (join_comma l')
  end.

Fixpoint has_comma (s : string) : bool :=
  match s with
  | EmptyString => false
  | String c s' => Ascii.eqb c comma || has_comma s'
  end.

Section Cli.

Lemma comma_string : String comma "" = ",".
Proof. reflexivity. Qed.

Lemma split_comma_nonempty s : split_comma s ≠ [].
Proof.
  destruct s as [|c s]; [done|]. cbn [split_comma].
  destruct (Ascii.eqb c comma); [done|]. by destruct (split_comma s).
Qed.

Lemma join_comma_cons x y l :
  join_comma (x :: y :: l) = x +:+ String comma (join_comma (y :: l)).
Proof. done. Qed.

Lemma join_split_comma s : join_comma (split_comma s) = s.
Proof.
  induction s as [|c s IH]; [done|]. cbn [split_comma].
  pose proof (split_comma_nonempty s) as Hne.
  destruct (Ascii.eqb_spec c comma) as [->|Hc].
  - destruct (split_comma s) as [|y l]; [done|].
    rewrite join_comma_cons, IH. done.
  - destruct (split_comma s) as [|y l]; [done|].
    destruct l as [|z l]; cbn [join_comma] in *; [by rewrite IH|].
    rewrite <- IH. done.
Qed.

Lemma split_comma_free s : Forall (λ x, has_comma x = false) (split_comma s).
Proof.
  induction s as [|c s IH]; [by repeat constructor|]. cbn [split_comma].
  destruct (Ascii.eqb c comma) eqn:Hc; [by constructor|].
  destruct (split_comma s) as [|y l]; [repeat constructor; cbn; by rewrite Hc|].
  apply Forall_cons in IH as [Hy Hl]. constructor; [|done].
  cbn [has_comma]. by rewrite Hc, Hy.
Qed.

Lemma split_comma_segment x rest :
  has_comma x = false →
  split_comma (x +:+ String comma rest) = x :: split_comma rest.
Proof.
  induction x as [|c x IH]; intros Hx; [done|].
  cbn [has_comma] in Hx. apply orb_false_iff in Hx as [Hc Hx].
  change (String c x +:+ String comma rest) with (String c (x +:+ String comma rest)).
  cbn [split_comma]. by rewrite Hc, IH.
Qed.

Lemma split_comma_last x : has_comma x = false → split_comma x = [x].
Proof.
  induction x as [|c x IH]; intros Hx; [done|].
  cbn [has_comma] in Hx. apply orb_false_iff in Hx as [Hc Hx].
  cbn [split_comma]. by rewrite Hc, IH.
Qed.

Lemma split_join_comma l :
  l ≠ [] → Forall (λ x, has_comma x = false) l → split_comma (join_comma l) = l.
Proof.
  induction l as [|x l IH]; intros Hne Hall; [done|].
  apply Forall_cons in Hall as [Hx Hl].
  destruct l as [|y l]; [by apply split_comma_last|].
  rewrite join_comma_cons, split_comma_segment by done.
  by rewrite IH.
Qed.

(** X27. The allow-list of the command line is [None] exactly for the
    empty text; otherwise it is a non-empty list of comma-free segments
    which, joined by commas, give back the text. *)
Theorem cli_images_segments text :
  (cli_images text = None ↔ text = "")
  ∧ ∀ l, cli_images text = Some l →
      l ≠ [] ∧ join_comma l = text ∧ Forall (λ x, has_comma x = false) l.
Proof.
  split.
  - by destruct text.
  - intros l. destruct text as [|c s]; [done|]. intros [= <-].
    split; [exact (split_comma_nonempty (String c s))|].
    split; [exact (join_split_comma (String c s))
           | exact (split_comma_free (String c s))].
Qed.

(** X28. For a non-empty list of comma-free names, other than the list of
    one empty name, the allow-list the command line makes of the names
    joined by commas is that list. *)
Theorem cli_images_of_names l :
  l ≠ [] → l ≠ [""] →
  Forall (λ x, has_comma x = false) l →
  cli_images (join_comma l) = Some l.
Proof.
  intros Hne Hne' Hall. pose proof (split_join_comma l Hne Hall) as Hs.
  unfold cli_images. destruct (join_comma l) as [|c s] eqn:Hj; [|by rewrite Hs].
  cbn in Hs. congruence.
Qed.

End Cli.

(** * The further properties on concrete inputs *)

(** A decoder for the Zstandard frames (RFC 8878) that hold their content
    in raw blocks: magic number, the frame header descriptor [0x20]
    (single segment, content size in one byte, no dictionary, no
    checksum), the content size, then the blocks, each a three-byte
    little-endian header (last-block bit, block type, block size)
    followed by its bytes.  Frames with other headers or compressed
    blocks are not decoded. *)
Fixpoint zstd_raw_blocks (fuel : nat) (data : bytes) : result bytes :=
  match fuel, data with
  | S fuel', h0 :: h1 :: h2 :: rest =>
      let header := (Byte.to_N h0 + 256 * Byte.to_N h1
                     + 65536 * Byte.to_N h2)%N in
      let size := N.to_nat (N.shiftr header 3) in
      if negb (N.land (N.shiftr header 1) 3 =? 0)%N
      then Raise (LibraryError "ZstdError" "block type not decoded")
      else if (length rest <? size)%nat
      then Raise (LibraryError "ZstdError" "Src size is incorrect")
      else if N.testbit header 0
      then if bool_decide (drop size rest = []) then Ok (take size rest)
           else Raise (LibraryError "ZstdError" "data after the frame")
      else match zstd_raw_blocks fuel' (drop size rest) with
           | Ok more => Ok (take size rest ++ more)
           | Raise e => Raise e
           end
  | _, _ => Raise (LibraryError "ZstdError" "Src size is incorrect")
  end.

Definition zstd_raw (data : bytes) : result bytes :=
  match data with
  | x28 :: xb5 :: x2f :: xfd :: x20 :: size :: blocks =>
      match zstd_raw_blocks (length blocks) blocks with
      | Ok content =>
          if bool_decide (N.of_nat (length content) = Byte.to_N size)
          then Ok content
          else Raise (LibraryError "ZstdError" "Data corruption detected")
      | Raise e => Raise e
      end
  | _ => Raise (LibraryError "ZstdError" "frame not decoded")
  end.


(** [payload3] cut inside its header. *)
Definition cut_header : bytes := take 14 payload3.

(** [test_libs] with that decoder and one more file. *)
Definition raw_libs : Libraries := {|
  sha256 := SHA256.digest;
  bz2_decompress := no_stream "OSError";
  brotli_decompress := no_stream "brotli.error";
  BZ2Decompressor_decompress := no_stream "OSError";
  LZMADecompressor_decompress := no_stream "LZMAError";
  ZstdDecompressor_decompress := zstd_raw;
  core_patch := bspatch.patch;
  ParseFromString := test_ParseFromString;
  open_payload_file := λ path,
    if bool_decide (path = "cut.bin") then Ok cut_header
    else test_open_payload_file path
|}.

(** ** The operation engine *)













Lemma verify_contiguous_spec_witness :
  verify_contiguous [extent 0 1; extent 1 2] = true
  ∧ um.start_block (extent 1 2) = total_blocks (take 1 [extent 0 1; extent 1 2])
  ∧ verify_contiguous [extent 0 1; extent 2 1] = false.
Proof.
  assert (H1 : verify_contiguous [extent 0 1; extent 1 2] = true) by reflexivity.
  split; [exact H1|]. split.
  - exact (proj1 (verify_contiguous_spec [extent 0 1; extent 1 2]) H1 1%nat
             (extent 1 2) eq_refl).
  - destruct (verify_contiguous [extent 0 1; extent 2 1]) eqn:E; [|reflexivity].
    pose proof (proj1 (verify_contiguous_spec [extent 0 1; extent 2 1]) E 1%nat
                  (extent 2 1) eq_refl) as Hs.
    vm_compute in Hs. discriminate.
Defined.




(** ** The patch reader *)

Lemma control_tuples_records_witness :
  length (le_bytes 8 ++ le_bytes 0 ++ le_bytes 0) mod 24 = 0
  ∧ control_tuples (Some (le_bytes 8 ++ le_bytes 0 ++ le_bytes 0))
    = Ok [(8, 0, 0)%Z]
  ∧ length (le_bytes 8 ++ le_bytes 0) mod 24 ≠ 0
  ∧ control_tuples (Some (le_bytes 8 ++ le_bytes 0))
    = Raise (ValueError "8 bytes expected").
Proof.
  assert (H1 : length (le_bytes 8 ++ le_bytes 0 ++ le_bytes 0) mod 24 = 0)
    by reflexivity.
  assert (H2 : length (le_bytes 8 ++ le_bytes 0) mod 24 ≠ 0) by discriminate.
  split; [exact H1|]. split; [|split; [exact H2|]].
  - exact (proj1 (control_tuples_records _) H1).
  - exact (proj2 (control_tuples_records _) H2).
Defined.

Lemma bsdf2_read_patch_layout_witness :
  let ctrl := le_bytes 8 ++ le_bytes 0 ++ le_bytes 0 in
  let diff := [x00; x00; x00; x01; x00; x00; x00; x00] in
  decode_int64 (le_bytes 24) = Ok (Z.of_nat (length ctrl))
  ∧ decode_int64 (le_bytes 8) = Ok (Z.of_nat (length diff))
  ∧ decode_int64 (le_bytes 8) = Ok 8%Z
  ∧ bsdf2_decompress (libs:=test_libs) (Byte.to_N x00) ctrl = Ok (Some ctrl)
  ∧ control_tuples (Some ctrl) = Ok [(8, 0, 0)%Z]
  ∧ bsdf2_decompress (libs:=test_libs) (Byte.to_N x00) diff = Ok (Some diff)
  ∧ bsdf2_decompress (libs:=test_libs) (Byte.to_N x00) [] = Ok (Some [])
  ∧ (bsdf2_read_patch (libs:=test_libs) (File patch_aaab 0)).1
    = Ok (8%Z, [(8, 0, 0)%Z], Some diff, Some []).
Proof.
  intros ctrl diff.
  assert (H1 : decode_int64 (le_bytes 24) = Ok (Z.of_nat (length ctrl)))
    by reflexivity.
  assert (H2 : decode_int64 (le_bytes 8) = Ok (Z.of_nat (length diff)))
    by reflexivity.
  assert (H3 : decode_int64 (le_bytes 8) = Ok 8%Z) by reflexivity.
  assert (H4 : bsdf2_decompress (libs:=test_libs) (Byte.to_N x00) ctrl
               = Ok (Some ctrl)) by reflexivity.
  assert (H5 : control_tuples (Some ctrl) = Ok [(8, 0, 0)%Z]) by reflexivity.
  assert (H6 : bsdf2_decompress (libs:=test_libs) (Byte.to_N x00) diff
               = Ok (Some diff)) by reflexivity.
  assert (H7 : bsdf2_decompress (libs:=test_libs) (Byte.to_N x00) []
               = Ok (Some [])) by reflexivity.
  repeat (split; [assumption|]).
  exact (bsdf2_read_patch_layout (libs:=test_libs) x00 x00 x00 (le_bytes 24)
           (le_bytes 8) (le_bytes 8) ctrl diff [] _ _ _ _ _ H1 H2 H3 H4 H5 H6 H7).
Defined.

(** ** The partition driver *)










(** ** The run controller *)

(** A world with a file that is no image, and an image that is not
    selected. *)
Definition world_with_files : world :=
  World {["notes.txt" := b "keep"; "out/system.img" := b "old"]} [] [] [].

Lemma run_writes_only_images_witness :
  (∀ name, "notes.txt" ≠ img_path "out" name)
  ∧ fs (run_payload_dumper (libs:=test_libs) "payload.bin" "out" false "old"
          None false false None world_with_files).2 !! "notes.txt"
    = Some (b "keep").
Proof.
  assert (H1 : ∀ name, "notes.txt" ≠ img_path "out" name)
    by (intros name H; vm_compute in H; discriminate H).
  split; [exact H1|].
  exact (run_writes_only_images (libs:=test_libs) "payload.bin" "out" false "old"
           None false false None world_with_files "notes.txt" H1).
Defined.

Lemma run_writes_only_selected_images_witness :
  open_payload_file (Libraries:=test_libs) "payload.bin" = Ok payload3
  ∧ decodes (libs:=test_libs) payload3 manifest3 52
  ∧ (∀ part, part ∈ parts_to_dump manifest3 (Some ["boot"]) →
             "out/system.img" ≠ img_path "out" (um.partition_name part))
  ∧ fs (run_payload_dumper (libs:=test_libs) "payload.bin" "out" false "old"
          (Some ["boot"]) false false None world_with_files).2 !! "out/system.img"
    = Some (b "old").
Proof.
  assert (H1 : open_payload_file (Libraries:=test_libs) "payload.bin" = Ok payload3)
    by reflexivity.
  assert (H3 : ∀ part, part ∈ parts_to_dump manifest3 (Some ["boot"]) →
                 "out/system.img" ≠ img_path "out" (um.partition_name part)).
  { intros part Hin. vm_compute in Hin.
    apply elem_of_cons in Hin as [->|Hin]; [discriminate|].
    by apply elem_of_nil in Hin. }
  split; [exact H1|]. split; [exact payload3_decodes|]. split; [exact H3|].
  exact (run_writes_only_selected_images (libs:=test_libs) "payload.bin" "out"
           false "old" (Some ["boot"]) false false None payload3 manifest3 52
           world_with_files "out/system.img" H1 payload3_decodes H3).
Defined.

Lemma cancelled_at_first_poll_witness :
  open_payload_file (Libraries:=test_libs) "payload.bin" = Ok payload3
  ∧ decodes (libs:=test_libs) payload3 manifest3 52
  ∧ parts_to_dump manifest3 None ≠ []
  ∧ run_payload_dumper (libs:=test_libs) "payload.bin" "out" false "old" None
      true true (Some (λ _, true)) world0
    = (Ok tt,
       World ∅ ["Opening payload file..."; "Extraction cancelled."; "All done."]
             [] []).
Proof.
  assert (H1 : open_payload_file (Libraries:=test_libs) "payload.bin" = Ok payload3)
    by reflexivity.
  assert (H3 : parts_to_dump manifest3 None ≠ []) by discriminate.
  split; [exact H1|]. split; [exact payload3_decodes|]. split; [exact H3|].
  exact (cancelled_at_first_poll (libs:=test_libs) "payload.bin" "out" false
           "old" None true true (λ _, true) payload3 manifest3 52 world0
           H1 payload3_decodes H3 eq_refl).
Defined.

Lemma allow_list_without_match_extracts_nothing_witness :
  open_payload_file (Libraries:=test_libs) "payload.bin" = Ok payload3
  ∧ decodes (libs:=test_libs) payload3 manifest3 52
  ∧ ["recovery"] ≠ []
  ∧ (∀ part, part ∈ um.partitions manifest3 →
             um.partition_name part ∉ ["recovery"])
  ∧ run_payload_dumper (libs:=test_libs) "payload.bin" "out" false "old"
      (Some ["recovery"]) true true None world0
    = (Ok tt, World ∅ ["Opening payload file..."; "All done."] [] []).
Proof.
  assert (H1 : open_payload_file (Libraries:=test_libs) "payload.bin" = Ok payload3)
    by reflexivity.
  assert (H3 : ["recovery"] ≠ []) by discriminate.
  assert (H4 : ∀ part, part ∈ um.partitions manifest3 →
                 um.partition_name part ∉ ["recovery"]).
  { intros part Hin Hn. apply list_elem_of_singleton in Hn.
    vm_compute in Hin.
    repeat (apply elem_of_cons in Hin as [->|Hin]; [discriminate|]).
    by apply elem_of_nil in Hin. }
  split; [exact H1|]. split; [exact payload3_decodes|]. split; [exact H3|].
  split; [exact H4|].
  exact (allow_list_without_match_extracts_nothing (libs:=test_libs) "payload.bin"
           "out" false "old" ["recovery"] true true None payload3 manifest3 52
           world0 H1 payload3_decodes H3 H4).
Defined.

Lemma cancel_stops_before_partition_witness :
  let poll := λ i, (1 <=? i)%nat in
  open_payload_file (Libraries:=test_libs) "payload.bin" = Ok payload3
  ∧ decodes (libs:=test_libs) payload3 manifest3 52
  ∧ poll 1%nat = true
  ∧ ∃ k, (k ≤ 1)%nat
         ∧ opened (run_payload_dumper (libs:=test_libs) "payload.bin" "out" false
                     "old" None false false (Some poll) world0).2
           = (λ part, img_path "out" (um.partition_name part))
               <$> take k [boot; system; vendor].
Proof.
  intros poll.
  assert (H1 : open_payload_file (Libraries:=test_libs) "payload.bin" = Ok payload3)
    by reflexivity.
  split; [exact H1|]. split; [exact payload3_decodes|]. split; [reflexivity|].
  exact (cancel_stops_before_partition (libs:=test_libs) "payload.bin" "out"
           false "old" None false false poll payload3 manifest3 52 world0 1%nat
           H1 payload3_decodes eq_refl).
Defined.

Lemma short_header_raises_struct_error_witness :
  open_payload_file (Libraries:=raw_libs) "cut.bin" = Ok cut_header
  ∧ take 4 cut_header = b "CrAU"
  ∧ (length cut_header < 24)%nat
  ∧ be_value (take 8 (drop 4 cut_header)) = 2%N
  ∧ run_payload_dumper (libs:=raw_libs) "cut.bin" "out" false "old" None true
      true None world0
    = (Raise (StructError "unpack requires a buffer of 8 bytes"),
       World ∅ ["Opening payload file..."] [] []).
Proof.
  assert (H1 : open_payload_file (Libraries:=raw_libs) "cut.bin" = Ok cut_header)
    by reflexivity.
  assert (H2 : take 4 cut_header = b "CrAU") by reflexivity.
  assert (H3 : (length cut_header < 24)%nat) by (vm_compute; lia).
  assert (H4 : be_value (take 8 (drop 4 cut_header)) = 2%N) by reflexivity.
  repeat (split; [assumption|]).
  exact (short_header_raises_struct_error (libs:=raw_libs) "cut.bin" "out" false
           "old" None true true None cut_header world0 H1 H2 H3 (λ _, H4)).
Defined.

(** ** The byte utilities and the command line *)

Lemma unpack_inverts_big_endian_witness :
  (258 < 2 ^ 64)%N
  ∧ u64 [x00; x00; x00; x00; x00; x00; x01; x02] = Ok 258%N
  ∧ u32 [x00; x00; x01; x02] = Ok 258%N
  ∧ [x00; x00; x01; x02] = be_bytes 4 258.
Proof.
  assert (H1 : (258 < 2 ^ 64)%N) by reflexivity.
  assert (H2 : (258 < 2 ^ 32)%N) by reflexivity.
  split; [exact H1|]. split; [|split].
  - exact (proj1 unpack_inverts_big_endian 258%N H1).
  - exact (proj1 (proj2 (proj2 unpack_inverts_big_endian)) 258%N H2).
  - exact (proj1 (proj2 (proj2 (proj2 unpack_inverts_big_endian))
                    [x00; x00; x01; x02] 258%N eq_refl)).
Defined.

Lemma cli_images_segments_witness :
  cli_images "boot,,system" = Some ["boot"; ""; "system"]
  ∧ ["boot"; ""; "system"] ≠ []
  ∧ join_comma ["boot"; ""; "system"] = "boot,,system".
Proof.
  assert (H1 : cli_images "boot,,system" = Some ["boot"; ""; "system"])
    by reflexivity.
  split; [exact H1|].
  destruct (proj2 (cli_images_segments "boot,,system") _ H1) as (Hne & Hj & _).
  split; [exact Hne | exact Hj].
Defined.

Lemma cli_images_of_names_witness :
  ["boot"; "vendor"] ≠ []
  ∧ ["boot"; "vendor"] ≠ [""]
  ∧ Forall (λ x, has_comma x = false) ["boot"; "vendor"]
  ∧ cli_images "boot,vendor" = Some ["boot"; "vendor"].
Proof.
  assert (H1 : ["boot"; "vendor"] ≠ []) by discriminate.
  assert (H2 : ["boot"; "vendor"] ≠ [""]) by discriminate.
  assert (H3 : Forall (λ x, has_comma x = false) ["boot"; "vendor"])
    by (repeat constructor).
  repeat (split; [assumption|]).
  exact (cli_images_of_names ["boot"; "vendor"] H1 H2 H3).
Defined.
